(** * Double pendulum simulation: the physics core of [simulation.py]

    A shallow embedding of the class [DoublePendulum] (constructor, [derivs],
    [step], [get_pos], [perturb]), of the trace memory kept by [update] and
    of [on_click], followed by the properties that hold of them.

    Numbers.  The methods are embedded twice.

    First with every Python [float] and NumPy [float64] read as a real
    number.  This is the reading for what formula a method computes and for
    what a method changes; rounding and overflow are not part of it.  Of
    the two number types it keeps the one place where they differ on finite
    inputs, division by zero: the Python operator [/] raises
    [ZeroDivisionError], the NumPy operator [/] returns a non-finite value
    and only emits a warning.  [np.pi], [np.sin] and [np.cos] are the real
    [PI], [sin] and [cos].

    Then, in the module [F64], on IEEE binary64 numbers with the dynamic
    type of each number.  This is the reading for what the values returned
    are: rounding, inf and nan, and which division a parameter of either
    type gets. *)

From Stdlib Require Import Reals Lra Lia String List.
From Stdlib Require ZArith QArith Floats.
Import ListNotations.

Local Open Scope R_scope.

(** ** Exceptions and the state-and-error monad of the script *)

Inductive exn : Set :=
| ZeroDivisionError
| IndexError.

Inductive result (A : Type) : Type :=
| Ok (a : A)
| Raise (e : exn).

Arguments Ok {A} a.
Arguments Raise {A} e.

(** ** Numbers and arrays *)

(** The value of a NumPy division: a real, or a non-finite value.  The three
    non-finite values are one case: which of them comes out depends on the
    sign of a floating-point zero, which a real number does not have. *)
Inductive float64 : Type :=
| Finite (r : R)
| NonFinite.

(** [a / b] on two Python floats. *)
Definition py_truediv (a b : R) : result R :=
  if Req_dec_T b 0 then Raise ZeroDivisionError else Ok (a / b).

(** [a / b] on two NumPy float64 scalars, under NumPy's default error state. *)
Definition np_true_divide (a b : R) : float64 :=
  if Req_dec_T b 0 then NonFinite else Finite (a / b).

(** A NumPy array of shape (4,), read by position. *)
Record array4 (A : Type) : Type := Array4 {
  at0 : A;
  at1 : A;
  at2 : A;
  at3 : A
}.

Arguments Array4 {A} _ _ _ _.
Arguments at0 {A} _.
Arguments at1 {A} _.
Arguments at2 {A} _.
Arguments at3 {A} _.

(** The state vector: th1, w1, th2, w2. *)
Definition State : Type := array4 R.

(** ** The class [DoublePendulum] *)

Record DoublePendulum : Type := mkDoublePendulum {
  L1 : R;
  L2 : R;
  M1 : R;
  M2 : R;
  g : R;
  state : State
}.

Definition set_state (self : DoublePendulum) (s : State) : DoublePendulum :=
  mkDoublePendulum (L1 self) (L2 self) (M1 self) (M2 self) (g self) s.

(** A keyword argument with a default value. *)
Definition kwarg (given : option R) (default : R) : R :=
  match given with
  | Some v => v
  | None => default
  end.

(** [DoublePendulum.__init__(self, L1=1.0, L2=1.0, M1=1.0, M2=1.0)]. *)
Definition __init__ (L1 L2 M1 M2 : option R) : DoublePendulum :=
  mkDoublePendulum
    (kwarg L1 1.0) (kwarg L2 1.0) (kwarg M1 1.0) (kwarg M2 1.0)
    9.81
    (Array4 (PI / 1.1) 0 (PI / 1.1) 0).

(** The local [delta] and [den1] of [derivs]. *)
Definition derivs_delta (state : State) : R :=
  at2 state - at0 state.

Definition derivs_den1 (self : DoublePendulum) (state : State) : R :=
  let delta := derivs_delta state in
  (M1 self + M2 self) * L1 self
  - M2 self * L1 self * cos delta * cos delta.

(** The two numerators of [derivs], as the source parenthesises them. *)
Definition derivs_num1 (self : DoublePendulum) (state : State) : R :=
  let delta := derivs_delta state in
  M2 self * L1 self * at1 state * at1 state * sin delta * cos delta
  + M2 self * g self * sin (at2 state) * cos delta
  + M2 self * L2 self * at3 state * at3 state * sin delta
  - (M1 self + M2 self) * g self * sin (at0 state).

Definition derivs_num3 (self : DoublePendulum) (state : State) : R :=
  let delta := derivs_delta state in
  (- M2 self) * L2 self * at3 state * at3 state * sin delta * cos delta
  + (M1 self + M2 self) * g self * sin (at0 state) * cos delta
  - (M1 self + M2 self) * L1 self * at1 state * at1 state * sin delta
  - (M1 self + M2 self) * g self * sin (at2 state).

(** [DoublePendulum.derivs(self, state, t)].  [den1] and both numerators hold
    a NumPy scalar (they contain [np.cos] or [np.sin] of an array element), so
    the two divisions that fill [dydx] are NumPy divisions; [self.L2/self.L1]
    divides two Python floats. *)
Definition derivs (self : DoublePendulum) (state : State) (t : R)
  : result (array4 float64) :=
  let dydx0 := Finite (at1 state) in
  let den1 := derivs_den1 self state in
  let dydx1 := np_true_divide (derivs_num1 self state) den1 in
  let dydx2 := Finite (at3 state) in
  match py_truediv (L2 self) (L1 self) with
  | Raise e => Raise e
  | Ok ratio =>
      let den2 := ratio * den1 in
      let dydx3 := np_true_divide (derivs_num3 self state) den2 in
      Ok (Array4 dydx0 dydx1 dydx2 dydx3)
  end.

(** The value of the local [den2] when [self.L2/self.L1] is defined. *)
Definition derivs_den2 (self : DoublePendulum) (state : State) : R :=
  (L2 self / L1 self) * derivs_den1 self state.

(** The tuple [x1, y1, x2, y2] that [get_pos] computes from a pendulum. *)
Definition positions (self : DoublePendulum) : R * R * R * R :=
  let th1 := at0 (state self) in
  let th2 := at2 (state self) in
  let x1 := L1 self * sin th1 in
  let y1 := - L1 self * cos th1 in
  let x2 := x1 + L2 self * sin th2 in
  let y2 := y1 - L2 self * cos th2 in
  (x1, y1, x2, y2).

(** ** The state of the running script *)

(** NumPy's global generator, as the sequence of samples of [0, 1) it is
    going to deliver and the number of samples already taken. *)
Record RandomState : Type := mkRandomState {
  samples : nat -> R;
  cursor : nat
}.

(** The module-level objects the physics core reads or writes: the global
    instance [sim], the two trace lists, the generator behind [np.random] and
    what was printed. *)
Record World : Type := mkWorld {
  sim : DoublePendulum;
  history_x : list R;
  history_y : list R;
  np_random : RandomState;
  stdout : list string
}.

Definition M (A : Type) : Type := World -> result (A * World).

Definition ret {A : Type} (a : A) : M A :=
  fun w => Ok (a, w).

Definition bind {A B : Type} (c : M A) (k : A -> M B) : M B :=
  fun w =>
    match c w with
    | Ok (a, w') => k a w'
    | Raise e => Raise e
    end.

Definition lift {A : Type} (r : result A) : M A :=
  fun w =>
    match r with
    | Ok a => Ok (a, w)
    | Raise e => Raise e
    end.

Definition gets {A : Type} (f : World -> A) : M A :=
  fun w => Ok (f w, w).

Definition modify (f : World -> World) : M unit :=
  fun w => Ok (tt, f w).

Declare Scope py_scope.
Delimit Scope py_scope with py.
Notation "x <- c ;; k" := (bind c (fun x => k))
  (at level 61, c at next level, right associativity) : py_scope.
Notation "c ;; k" := (bind c (fun _ => k))
  (at level 61, right associativity) : py_scope.
Local Open Scope py_scope.

(** The assignments the methods make. *)
Definition with_sim (f : DoublePendulum -> DoublePendulum) (w : World) : World :=
  mkWorld (f (sim w)) (history_x w) (history_y w) (np_random w) (stdout w).

Definition with_history (hx hy : list R) (w : World) : World :=
  mkWorld (sim w) hx hy (np_random w) (stdout w).








(** [DoublePendulum.get_pos(self)], called on [sim]. *)
Definition get_pos : M (R * R * R * R) :=
  self <- gets sim ;;
  ret (positions self).


(** [rows[i]] on the rows of a two-dimensional array. *)
Definition getitem {A : Type} (rows : list A) (i : nat) : result A :=
  match nth_error rows i with
  | Some row => Ok row
  | None => Raise IndexError
  end.

(** [l.pop(0)] on a Python list, the popped element dropped. *)
Definition pop0 {A : Type} (l : list A) : result (list A) :=
  match l with
  | [] => Raise IndexError
  | _ :: rest => Ok rest
  end.

(** Global constants of the script. *)
Definition dt : R := 0.04.
Definition max_history : nat := 200.

(** The trace memory of [update]: both lists grow by one point, and when
    [history_x] has grown past [max_history] both lose their first element. *)
Definition record_trace (x2 y2 : R) : M unit :=
  modify (fun w => with_history (history_x w ++ [x2]) (history_y w ++ [y2]) w) ;;
  hx <- gets history_x ;;
  if (max_history <? List.length hx)%nat then
    hx' <- lift (pop0 hx) ;;
    hy <- gets history_y ;;
    hy' <- lift (pop0 hy) ;;
    modify (with_history hx' hy')
  else
    ret tt.

(** Running a computation once per element of a list, in order. *)
Fixpoint for_each {A B : Type} (body : A -> M B) (l : list A) : M (list B) :=
  match l with
  | [] => ret []
  | a :: rest =>
      b <- body a ;;
      bs <- for_each body rest ;;
      ret (b :: bs)
  end.


Section Solver.

(** [scipy.integrate.odeint(func, y0, t)]: the library's LSODA solver, a
    parameter of the development.  It is called with the callback, the
    initial state and the list of times, and gives one row per time;
    an exception of the callback comes out of the call. *)
Variable odeint :
  (State -> R -> result (array4 float64)) -> State -> list R ->
  result (list State).

(** [DoublePendulum.step(self, dt)], called on [sim]. *)
Definition step (dt : R) : M (R * R * R * R) :=
  self <- gets sim ;;
  let t_span := [0; dt] in
  rows <- lift (odeint (derivs self) (state self) t_span) ;;
  next_state <- lift (getitem rows 1) ;;
  modify (with_sim (fun self => set_state self next_state)) ;;
  get_pos.

(** [update(frame)] without its drawing calls: one physics step, then the
    end of the second rod is recorded in the trace. *)
Definition update (frame : nat) : M unit :=
  p <- step dt ;;
  let '(_, _, x2, y2) := p in
  record_trace x2 y2.

End Solver.

(** The script's global instance and the state the script starts in. *)
Definition sim0 : DoublePendulum :=
  __init__ (Some 1.0) (Some 1.0) (Some 1.0) (Some 1.0).

Definition start (r : RandomState) : World :=
  mkWorld sim0 [] [] r [].

(** ** The relations of the specification

    The rate of change of the state as the specification writes it, with
    squares as squares and [delta = th2 - th1]; [p] carries the parameters. *)

Definition spec_den1 (p : DoublePendulum) (th1 th2 : R) : R :=
  let delta := th2 - th1 in
  (M1 p + M2 p) * L1 p - M2 p * L1 p * (cos delta) ^ 2.

Definition spec_den2 (p : DoublePendulum) (th1 th2 : R) : R :=
  (L2 p / L1 p) * spec_den1 p th1 th2.

Definition spec_w1_rate (p : DoublePendulum) (th1 w1 th2 w2 : R) : R :=
  let delta := th2 - th1 in
  (M2 p * L1 p * w1 ^ 2 * sin delta * cos delta
   + M2 p * g p * sin th2 * cos delta
   + M2 p * L2 p * w2 ^ 2 * sin delta
   - (M1 p + M2 p) * g p * sin th1)
  / spec_den1 p th1 th2.

Definition spec_w2_rate (p : DoublePendulum) (th1 w1 th2 w2 : R) : R :=
  let delta := th2 - th1 in
  (- (M2 p * L2 p * w2 ^ 2 * sin delta * cos delta)
   + (M1 p + M2 p) * g p * sin th1 * cos delta
   - (M1 p + M2 p) * L1 p * w1 ^ 2 * sin delta
   - (M1 p + M2 p) * g p * sin th2)
  / spec_den2 p th1 th2.

(** Valid parameters: lengths and masses are positive. *)
Definition valid_parameters (p : DoublePendulum) : Prop :=
  0 < L1 p /\ 0 < L2 p /\ 0 < M1 p /\ 0 < M2 p.



(** ** What is assumed of the solver *)

(** A callback that never raises and returns finite rates only. *)
Definition finite_rates (f : State -> R -> result (array4 float64)) : Prop :=
  forall (y : State) (t : R), exists a b c d : R,
    f y t = Ok (Array4 (Finite a) (Finite b) (Finite c) (Finite d)).

(** On such a callback [odeint] returns, with one row per requested time. *)
Definition odeint_returns
  (odeint : (State -> R -> result (array4 float64)) -> State -> list R ->
            result (list State)) : Prop :=
  forall f y0 ts, finite_rates f ->
    exists rows, odeint f y0 ts = Ok rows /\ List.length rows = List.length ts.

(** A solver that meets this: one explicit Euler step from the first time to
    each later one.  A non-finite rate leaves its component where it was. *)
Definition rate_value (v : float64) : R :=
  match v with
  | Finite r => r
  | NonFinite => 0
  end.

Definition euler_row (y0 : State) (k : array4 float64) (h : R) : State :=
  Array4 (at0 y0 + h * rate_value (at0 k))
         (at1 y0 + h * rate_value (at1 k))
         (at2 y0 + h * rate_value (at2 k))
         (at3 y0 + h * rate_value (at3 k)).

Definition euler_odeint
  (f : State -> R -> result (array4 float64)) (y0 : State) (ts : list R)
  : result (list State) :=
  match ts with
  | [] => Ok []
  | t0 :: later =>
      match f y0 t0 with
      | Raise e => Raise e
      | Ok k => Ok (y0 :: map (fun t => euler_row y0 k (t - t0)) later)
      end
  end.

(** The last [n] elements of a list. *)
Definition last_n {A : Type} (n : nat) (l : list A) : list A :=
  skipn (List.length l - n) l.


(** A generator whose samples are all one quarter. *)
Definition quarter_samples : RandomState :=
  mkRandomState (fun _ => 0.25) 0.

(** ** The click handler *)




(** ** Quantities the properties below are stated with *)

(** The state seen in a mirror through the vertical axis. *)
Definition mirror (s : State) : State :=
  Array4 (- at0 s) (- at1 s) (- at2 s) (- at3 s).

Definition float64_opp (v : float64) : float64 :=
  match v with
  | Finite r => Finite (- r)
  | NonFinite => NonFinite
  end.

Definition rate_opp (k : array4 float64) : array4 float64 :=
  Array4 (float64_opp (at0 k)) (float64_opp (at1 k))
         (float64_opp (at2 k)) (float64_opp (at3 k)).

Definition result_map {A B : Type} (f : A -> B) (r : result A) : result B :=
  match r with
  | Ok a => Ok (f a)
  | Raise e => Raise e
  end.

(** The velocities of the two bobs: the time derivative of [positions] when
    th1 and th2 change at the rates w1 and w2. *)
Definition velocities (p : DoublePendulum) (s : State) : R * R * R * R :=
  let vx1 := L1 p * cos (at0 s) * at1 s in
  let vy1 := L1 p * sin (at0 s) * at1 s in
  let vx2 := vx1 + L2 p * cos (at2 s) * at3 s in
  let vy2 := vy1 + L2 p * sin (at2 s) * at3 s in
  (vx1, vy1, vx2, vy2).




(** ** The same methods on binary64 numbers

    The definitions above read every number as a real.  That is the right
    reading of what formula a method computes and of what it changes; it
    says nothing of rounding, of inf and nan, or of the difference between
    a Python float and a NumPy scalar as a parameter.  The module below
    follows the source once more on IEEE binary64 numbers, the kernel's
    primitive floats, with every operation in the order Python evaluates
    it.  The sine and cosine of the C library behind [np.sin] and [np.cos]
    are parameters. *)

Module F64.

Import ZArith QArith Floats.
#[local] Set Warnings "-inexact-float".

Local Open Scope float_scope.

(** A number of the script with its dynamic type: the constructor arguments
    are stored as they are given, so a parameter is a Python [float] or a
    NumPy [float64]; an element of an array is a [float64]. *)
Inductive number : Set :=
| py_float (x : float)
| np_float64 (x : float).

Definition value (a : number) : float :=
  match a with
  | py_float x => x
  | np_float64 x => x
  end.

(** [a + b], [a - b], [a * b]: a Python float when both operands are, a
    NumPy scalar as soon as one of them is. *)
Definition binop (op : float -> float -> float) (a b : number) : number :=
  match a, b with
  | py_float x, py_float y => py_float (op x y)
  | _, _ => np_float64 (op (value a) (value b))
  end.

Definition add : number -> number -> number := binop PrimFloat.add.
Definition sub : number -> number -> number := binop PrimFloat.sub.
Definition mul : number -> number -> number := binop PrimFloat.mul.

Definition neg (a : number) : number :=
  match a with
  | py_float x => py_float (- x)
  | np_float64 x => np_float64 (- x)
  end.

(** [a / b]: between two Python floats a zero divisor (0.0 or -0.0) raises;
    with a NumPy scalar on either side the division is NumPy's, which
    returns inf or nan and only warns. *)
Definition truediv (a b : number) : result number :=
  match a, b with
  | py_float x, py_float y =>
      if (y =? 0) then Raise ZeroDivisionError else Ok (py_float (x / y))
  | _, _ => Ok (np_float64 (value a / value b))
  end.

Declare Scope num_scope.
Delimit Scope num_scope with num.
Bind Scope num_scope with number.
Notation "a + b" := (add a b) : num_scope.
Notation "a - b" := (sub a b) : num_scope.
Notation "a * b" := (mul a b) : num_scope.
Notation "- a" := (neg a) : num_scope.

(** inf, -inf or nan. *)
Definition nonfinite (x : float) : bool :=
  match Prim2SF x with
  | S754_infinity _ => true
  | S754_nan => true
  | _ => false
  end.

(** The exact value of a finite float, as a rational. *)
Definition exact (x : float) : option Q :=
  match Prim2SF x with
  | S754_zero _ => Some 0%Q
  | S754_finite s m e =>
      Some (inject_Z (if s then Z.neg m else Z.pos m) * Qpower 2 e)%Q
  | _ => None
  end.

Record DoublePendulum : Set := mkDoublePendulum {
  L1 : number;
  L2 : number;
  M1 : number;
  M2 : number;
  g : number;
  state : array4 float
}.

Definition set_state (self : DoublePendulum) (s : array4 float)
  : DoublePendulum :=
  mkDoublePendulum (L1 self) (L2 self) (M1 self) (M2 self) (g self) s.

Definition kwarg (given : option number) (default : number) : number :=
  match given with
  | Some v => v
  | None => default
  end.

(** [np.pi]. *)
Definition np_pi : float := 3.141592653589793.

(** [DoublePendulum.__init__(self, L1=1.0, L2=1.0, M1=1.0, M2=1.0)]. *)
Definition __init__ (L1 L2 M1 M2 : option number) : DoublePendulum :=
  mkDoublePendulum
    (kwarg L1 (py_float 1.0)) (kwarg L2 (py_float 1.0))
    (kwarg M1 (py_float 1.0)) (kwarg M2 (py_float 1.0))
    (py_float 9.81)
    (Array4 (np_pi / 1.1) 0 (np_pi / 1.1) 0).

Section Libm.

(** The values of [np.sin] and [np.cos] on a float64. *)
Variables np_sin np_cos : float -> float.

Definition sin (a : number) : number := np_float64 (np_sin (value a)).
Definition cos (a : number) : number := np_float64 (np_cos (value a)).

Local Open Scope num_scope.

Definition derivs_delta (state : array4 float) : number :=
  np_float64 (at2 state) - np_float64 (at0 state).

Definition derivs_den1 (self : DoublePendulum) (state : array4 float)
  : number :=
  let delta := derivs_delta state in
  (M1 self + M2 self) * L1 self
  - M2 self * L1 self * cos delta * cos delta.

Definition derivs_num1 (self : DoublePendulum) (state : array4 float)
  : number :=
  let delta := derivs_delta state in
  let s0 := np_float64 (at0 state) in
  let s1 := np_float64 (at1 state) in
  let s2 := np_float64 (at2 state) in
  let s3 := np_float64 (at3 state) in
  M2 self * L1 self * s1 * s1 * sin delta * cos delta
  + M2 self * g self * sin s2 * cos delta
  + M2 self * L2 self * s3 * s3 * sin delta
  - (M1 self + M2 self) * g self * sin s0.

Definition derivs_num3 (self : DoublePendulum) (state : array4 float)
  : number :=
  let delta := derivs_delta state in
  let s0 := np_float64 (at0 state) in
  let s1 := np_float64 (at1 state) in
  let s2 := np_float64 (at2 state) in
  let s3 := np_float64 (at3 state) in
  (- M2 self) * L2 self * s3 * s3 * sin delta * cos delta
  + (M1 self + M2 self) * g self * sin s0 * cos delta
  - (M1 self + M2 self) * L1 self * s1 * s1 * sin delta
  - (M1 self + M2 self) * g self * sin s2.

(** The local [den2], given the quotient [self.L2/self.L1]. *)
Definition derivs_den2 (ratio : number) (self : DoublePendulum)
           (state : array4 float) : number :=
  ratio * derivs_den1 self state.

(** [DoublePendulum.derivs(self, state, t)]; the entries of [dydx] are
    stored as float64. *)
Definition derivs (self : DoublePendulum) (state : array4 float) (t : float)
  : result (array4 float) :=
  let dydx0 := at1 state in
  let den1 := derivs_den1 self state in
  match truediv (derivs_num1 self state) den1 with
  | Raise e => Raise e
  | Ok dydx1 =>
      let dydx2 := at3 state in
      match truediv (L2 self) (L1 self) with
      | Raise e => Raise e
      | Ok ratio =>
          let den2 := derivs_den2 ratio self state in
          match truediv (derivs_num3 self state) den2 with
          | Raise e => Raise e
          | Ok dydx3 =>
              Ok (Array4 dydx0 (value dydx1) dydx2 (value dydx3))
          end
      end
  end.

(** [DoublePendulum.get_pos(self)]. *)
Definition get_pos (self : DoublePendulum) : float * float * float * float :=
  let th1 := np_float64 (at0 (state self)) in
  let th2 := np_float64 (at2 (state self)) in
  let x1 := L1 self * sin th1 in
  let y1 := - L1 self * cos th1 in
  let x2 := x1 + L2 self * sin th2 in
  let y2 := y1 - L2 self * cos th2 in
  (value x1, value y1, value x2, value y2).

Section Solver.

(** [scipy.integrate.odeint], a parameter as above, on float64 arrays. *)
Variable odeint :
  (array4 float -> float -> result (array4 float)) -> array4 float ->
  list float -> result (list (array4 float)).

(** [DoublePendulum.step(self, dt)]: the value returned and the object
    after the call. *)
Definition step (self : DoublePendulum) (dt : float)
  : result (float * float * float * float * DoublePendulum) :=
  let t_span := [0; dt] in
  match odeint (derivs self) (state self) t_span with
  | Raise e => Raise e
  | Ok rows =>
      match getitem rows 1 with
      | Raise e => Raise e
      | Ok next_state =>
          let self' := set_state self next_state in
          Ok (get_pos self', self')
      end
  end.

End Solver.

End Libm.


(** ** What the properties of the binary64 methods are stated with *)

Definition is_python (a : number) : bool :=
  match a with
  | py_float _ => true
  | np_float64 _ => false
  end.

Definition positive (a : number) : Prop := (0 <? value a) = true.

Definition positive_parameters (self : DoublePendulum) : Prop :=
  positive (L1 self) /\ positive (L2 self) /\
  positive (M1 self) /\ positive (M2 self).

(** The one case in which [self.L2/self.L1] raises. *)
Definition zero_python_length (self : DoublePendulum) : Prop :=
  is_python (L1 self) = true /\ is_python (L2 self) = true /\
  (value (L1 self) =? 0) = true.



(** The C library returns sin 0 = 0 and cos 0 = 1 exactly, and nan for an
    argument that is inf, -inf or nan. *)
Definition libm_exact_at_zero (np_sin np_cos : float -> float) : Prop :=
  np_sin 0 = 0 /\ np_cos 0 = 1.

Definition libm_nan_outside (np_sin np_cos : float -> float) : Prop :=
  forall x, nonfinite x = true -> np_sin x = nan /\ np_cos x = nan.

(** What is assumed of the solver on float64 arrays, for the two times
    [step] passes: it returns one row per time when the callback never
    raises; an entry whose rate at the initial state is inf or nan is inf or
    nan in the second row; an exception the callback raises at the initial
    state comes out. *)
Definition odeint_returns
  (odeint : (array4 float -> float -> result (array4 float)) ->
            array4 float -> list float -> result (list (array4 float)))
  : Prop :=
  forall f y0 t0 t1,
    (forall y t, exists k, f y t = Ok k) ->
    exists row0 row1, odeint f y0 [t0; t1] = Ok [row0; row1].

Definition carries (k row : array4 float) : Prop :=
  (nonfinite (at0 k) = true -> nonfinite (at0 row) = true) /\
  (nonfinite (at1 k) = true -> nonfinite (at1 row) = true) /\
  (nonfinite (at2 k) = true -> nonfinite (at2 row) = true) /\
  (nonfinite (at3 k) = true -> nonfinite (at3 row) = true).

Definition odeint_carries_nonfinite
  (odeint : (array4 float -> float -> result (array4 float)) ->
            array4 float -> list float -> result (list (array4 float)))
  : Prop :=
  forall f y0 t0 t1 k row0 row1,
    f y0 t0 = Ok k -> odeint f y0 [t0; t1] = Ok [row0; row1] ->
    carries k row1.

Definition odeint_lets_raise
  (odeint : (array4 float -> float -> result (array4 float)) ->
            array4 float -> list float -> result (list (array4 float)))
  : Prop :=
  forall f y0 t0 t1 e,
    f y0 t0 = Raise e -> odeint f y0 [t0; t1] = Raise e.

(** A solver that meets the three: one explicit Euler step from the first
    time to each later one. *)
Definition euler_row (y0 k : array4 float) (h : float) : array4 float :=
  Array4 (at0 y0 + h * at0 k) (at1 y0 + h * at1 k)
         (at2 y0 + h * at2 k) (at3 y0 + h * at3 k).

Definition euler_odeint
  (f : array4 float -> float -> result (array4 float))
  (y0 : array4 float) (ts : list float) : result (list (array4 float)) :=
  match ts with
  | [] => Ok []
  | t0 :: later =>
      match f y0 t0 with
      | Raise e => Raise e
      | Ok k => Ok (y0 :: map (fun t => euler_row y0 k (t - t0)) later)
      end
  end.

(** A library that meets [libm_exact_at_zero] and [libm_nan_outside]: the
    first terms of the two power series, nan outside the finite numbers. *)
Definition series_sin (x : float) : float :=
  if nonfinite x then nan else x - x * x * x / 6.

Definition series_cos (x : float) : float :=
  if nonfinite x then nan else 1 - x * x / 2.

End F64.

(** * Properties *)

(** ** The two divisions *)

Lemma py_truediv_zero (a : R) : py_truediv a 0 = Raise ZeroDivisionError.
Proof.
  unfold py_truediv. destruct (Req_dec_T 0 0) as [_ | H]; [reflexivity | ].
  exfalso. apply H. reflexivity.
Qed.

Lemma py_truediv_nonzero (a b : R) : b <> 0 -> py_truediv a b = Ok (a / b).
Proof.
  intros Hb. unfold py_truediv.
  destruct (Req_dec_T b 0) as [H | _]; [contradiction | reflexivity].
Qed.

Lemma np_true_divide_zero (a : R) : np_true_divide a 0 = NonFinite.
Proof.
  unfold np_true_divide. destruct (Req_dec_T 0 0) as [_ | H]; [reflexivity | ].
  exfalso. apply H. reflexivity.
Qed.

Lemma np_true_divide_nonzero (a b : R) :
  b <> 0 -> np_true_divide a b = Finite (a / b).
Proof.
  intros Hb. unfold np_true_divide.
  destruct (Req_dec_T b 0) as [H | _]; [contradiction | reflexivity].
Qed.

(** ** The denominators of [derivs] *)

Lemma sin_cos_square (x : R) : sin x * sin x + cos x * cos x = 1.
Proof.
  pose proof (sin2_cos2 x) as H. unfold Rsqr in H. exact H.
Qed.

Lemma derivs_den1_factored (self : DoublePendulum) (s : State) :
  derivs_den1 self s =
  L1 self * (M1 self + M2 self * (sin (derivs_delta s)) ^ 2).
Proof.
  unfold derivs_den1. cbv zeta.
  pose proof (sin_cos_square (derivs_delta s)) as H.
  set (sd := sin (derivs_delta s)) in *.
  set (cd := cos (derivs_delta s)) in *.
  replace (M2 self * L1 self * cd * cd)
    with (M2 self * L1 self * (cd * cd)) by ring.
  replace (cd * cd) with (1 - sd * sd) by lra.
  ring.
Qed.

Lemma derivs_den1_lower_bound (self : DoublePendulum) (s : State) :
  0 < L1 self -> 0 <= M2 self ->
  L1 self * M1 self <= derivs_den1 self s.
Proof.
  intros HL HM. rewrite derivs_den1_factored.
  assert (0 <= (sin (derivs_delta s)) ^ 2) by apply pow2_ge_0.
  assert (0 <= M2 self * (sin (derivs_delta s)) ^ 2)
    by (apply Rmult_le_pos; assumption).
  apply Rmult_le_compat_l; lra.
Qed.

Lemma derivs_den1_pos (self : DoublePendulum) (s : State) :
  valid_parameters self -> 0 < derivs_den1 self s.
Proof.
  intros (HL1 & _ & HM1 & HM2).
  apply Rlt_le_trans with (L1 self * M1 self).
  - apply Rmult_lt_0_compat; assumption.
  - apply derivs_den1_lower_bound; lra.
Qed.

Lemma derivs_den2_lower_bound (self : DoublePendulum) (s : State) :
  valid_parameters self -> L2 self * M1 self <= derivs_den2 self s.
Proof.
  intros Hv. pose proof Hv as (HL1 & HL2 & HM1 & HM2).
  unfold derivs_den2.
  assert (Hq : 0 < L2 self / L1 self) by (apply Rdiv_lt_0_compat; assumption).
  assert (Hd : L1 self * M1 self <= derivs_den1 self s)
    by (apply derivs_den1_lower_bound; lra).
  replace (L2 self * M1 self)
    with (L2 self / L1 self * (L1 self * M1 self)) by (field; lra).
  apply Rmult_le_compat_l; lra.
Qed.

Lemma derivs_den2_pos (self : DoublePendulum) (s : State) :
  valid_parameters self -> 0 < derivs_den2 self s.
Proof.
  intros Hv. pose proof Hv as (HL1 & HL2 & HM1 & HM2).
  apply Rlt_le_trans with (L2 self * M1 self).
  - apply Rmult_lt_0_compat; assumption.
  - apply derivs_den2_lower_bound; assumption.
Qed.

(** ** The value of [derivs] *)

(** Where [L1] is not zero [derivs] returns, and its four entries are these. *)
Lemma derivs_returns (self : DoublePendulum) (s : State) (t : R) :
  L1 self <> 0 ->
  derivs self s t =
  Ok (Array4 (Finite (at1 s))
             (np_true_divide (derivs_num1 self s) (derivs_den1 self s))
             (Finite (at3 s))
             (np_true_divide (derivs_num3 self s) (derivs_den2 self s))).
Proof.
  intros HL. unfold derivs. rewrite (py_truediv_nonzero _ _ HL).
  reflexivity.
Qed.

Lemma derivs_raises (self : DoublePendulum) (s : State) (t : R) :
  L1 self = 0 -> derivs self s t = Raise ZeroDivisionError.
Proof.
  intros HL. unfold derivs. rewrite HL, py_truediv_zero. reflexivity.
Qed.

Lemma derivs_finite (self : DoublePendulum) (s : State) (t : R) :
  valid_parameters self ->
  derivs self s t =
  Ok (Array4 (Finite (at1 s))
             (Finite (derivs_num1 self s / derivs_den1 self s))
             (Finite (at3 s))
             (Finite (derivs_num3 self s / derivs_den2 self s))).
Proof.
  intros Hv.
  pose proof (derivs_den1_pos self s Hv) as H1.
  pose proof (derivs_den2_pos self s Hv) as H2.
  destruct Hv as (HL1 & _).
  rewrite derivs_returns by lra.
  rewrite !np_true_divide_nonzero by lra.
  reflexivity.
Qed.

Lemma derivs_finite_rates (self : DoublePendulum) :
  valid_parameters self -> finite_rates (derivs self).
Proof.
  intros Hv y t. rewrite (derivs_finite self y t Hv).
  do 4 eexists. reflexivity.
Qed.

(** The source's expressions against the specification's. *)
Lemma spec_den1_eq (self : DoublePendulum) (th1 w1 th2 w2 : R) :
  spec_den1 self th1 th2 = derivs_den1 self (Array4 th1 w1 th2 w2).
Proof.
  unfold spec_den1, derivs_den1, derivs_delta. simpl. ring.
Qed.

Lemma spec_den2_eq (self : DoublePendulum) (th1 w1 th2 w2 : R) :
  spec_den2 self th1 th2 = derivs_den2 self (Array4 th1 w1 th2 w2).
Proof.
  unfold spec_den2, derivs_den2. rewrite (spec_den1_eq self th1 w1 th2 w2).
  reflexivity.
Qed.

Lemma valid_sim0 : valid_parameters sim0.
Proof.
  unfold valid_parameters, sim0. simpl. lra.
Qed.

(** C1: for positive lengths and masses and every state (th1, w1, th2, w2),
    [derivs] returns the vector whose first and third entries are w1 and w2
    and whose second and fourth entries are the quotients the specification
    gives, with delta = th2 - th1, den1 = (M1+M2) L1 - M2 L1 cos^2(delta) and
    den2 = (L2/L1) den1. *)
Theorem derivs_is_spec_rate (self : DoublePendulum) (th1 w1 th2 w2 t : R) :
  0 < L1 self -> 0 < L2 self -> 0 < M1 self -> 0 < M2 self ->
  derivs self (Array4 th1 w1 th2 w2) t =
  Ok (Array4 (Finite w1)
             (Finite (spec_w1_rate self th1 w1 th2 w2))
             (Finite w2)
             (Finite (spec_w2_rate self th1 w1 th2 w2))).
Proof.
  intros HL1 HL2 HM1 HM2.
  assert (Hv : valid_parameters self) by (unfold valid_parameters; tauto).
  rewrite (derivs_finite _ _ _ Hv). simpl.
  unfold spec_w1_rate, spec_w2_rate. cbv zeta.
  rewrite (spec_den1_eq self th1 w1 th2 w2), (spec_den2_eq self th1 w1 th2 w2).
  replace (derivs_num1 self (Array4 th1 w1 th2 w2))
    with (M2 self * L1 self * w1 ^ 2 * sin (th2 - th1) * cos (th2 - th1)
          + M2 self * g self * sin th2 * cos (th2 - th1)
          + M2 self * L2 self * w2 ^ 2 * sin (th2 - th1)
          - (M1 self + M2 self) * g self * sin th1)
    by (unfold derivs_num1, derivs_delta; simpl; ring).
  replace (derivs_num3 self (Array4 th1 w1 th2 w2))
    with (- (M2 self * L2 self * w2 ^ 2 * sin (th2 - th1) * cos (th2 - th1))
          + (M1 self + M2 self) * g self * sin th1 * cos (th2 - th1)
          - (M1 self + M2 self) * L1 self * w1 ^ 2 * sin (th2 - th1)
          - (M1 self + M2 self) * g self * sin th2)
    by (unfold derivs_num3, derivs_delta; simpl; ring).
  reflexivity.
Qed.

Lemma derivs_is_spec_rate_sim0 :
  (0 < L1 sim0 /\ 0 < L2 sim0 /\ 0 < M1 sim0 /\ 0 < M2 sim0) /\
  derivs sim0 (Array4 (PI / 1.1) 0 (PI / 1.1) 0) 0 =
  Ok (Array4 (Finite 0)
             (Finite (spec_w1_rate sim0 (PI / 1.1) 0 (PI / 1.1) 0))
             (Finite 0)
             (Finite (spec_w2_rate sim0 (PI / 1.1) 0 (PI / 1.1) 0))).
Proof.
  split.
  - exact valid_sim0.
  - apply (derivs_is_spec_rate sim0 (PI / 1.1) 0 (PI / 1.1) 0 0);
      unfold sim0; simpl; lra.
Defined.

(** C10, amended: in exact arithmetic.  For positive lengths and masses and
    every state, den1 equals L1 (M1 + M2 sin^2(delta)), so it is at least
    L1 M1, which is positive; den2 = (L2/L1) den1 is at least L2 M1 and
    positive; and no division of [derivs] is a division by zero: it returns
    four finite entries.  On binary64 numbers the sum M1 + M2 can absorb M1
    and both denominators be zero. *)
Theorem derivs_denominators_positive (self : DoublePendulum) (s : State) (t : R) :
  0 < L1 self -> 0 < L2 self -> 0 < M1 self -> 0 < M2 self ->
  derivs_den1 self s
    = L1 self * (M1 self + M2 self * (sin (at2 s - at0 s)) ^ 2) /\
  0 < L1 self * M1 self <= derivs_den1 self s /\
  derivs_den2 self s = (L2 self / L1 self) * derivs_den1 self s /\
  0 < L2 self * M1 self <= derivs_den2 self s /\
  derivs self s t =
  Ok (Array4 (Finite (at1 s))
             (Finite (derivs_num1 self s / derivs_den1 self s))
             (Finite (at3 s))
             (Finite (derivs_num3 self s / derivs_den2 self s))).
Proof.
  intros HL1 HL2 HM1 HM2.
  assert (Hv : valid_parameters self) by (unfold valid_parameters; tauto).
  split; [apply derivs_den1_factored | ].
  split.
  { split.
    - apply Rmult_lt_0_compat; assumption.
    - apply derivs_den1_lower_bound; lra. }
  split; [reflexivity | ].
  split.
  { split.
    - apply Rmult_lt_0_compat; assumption.
    - apply derivs_den2_lower_bound; assumption. }
  apply derivs_finite; assumption.
Qed.

Lemma derivs_denominators_positive_sim0 :
  (0 < L1 sim0 /\ 0 < L2 sim0 /\ 0 < M1 sim0 /\ 0 < M2 sim0) /\
  0 < L1 sim0 * M1 sim0 <= derivs_den1 sim0 (state sim0) /\
  0 < L2 sim0 * M1 sim0 <= derivs_den2 sim0 (state sim0).
Proof.
  split; [exact valid_sim0 | ].
  destruct valid_sim0 as (H1 & H2 & H3 & H4).
  destruct (derivs_denominators_positive sim0 (state sim0) 0 H1 H2 H3 H4)
    as (_ & Hd1 & _ & Hd2 & _).
  split; assumption.
Defined.

(** The input at which the claim C9, as the specification states it, fails:
    a pendulum built with [L1 = 0].  [derivs] raises at its initial state. *)
Lemma derivs_raises_for_zero_length :
  derivs (__init__ (Some 0) None None None)
         (state (__init__ (Some 0) None None None)) 0
  = Raise ZeroDivisionError.
Proof.
  apply derivs_raises. reflexivity.
Qed.

(** ** The constructor *)

(** C6: with no argument the four parameters are 1.0; whatever the arguments,
    each parameter is the argument given or 1.0, g is 9.81 and the state is
    (pi/1.1, 0, pi/1.1, 0). *)
Theorem init_defaults_and_fixed_state :
  (L1 (__init__ None None None None) = 1.0 /\
   L2 (__init__ None None None None) = 1.0 /\
   M1 (__init__ None None None None) = 1.0 /\
   M2 (__init__ None None None None) = 1.0) /\
  (forall a b c d : option R,
     g (__init__ a b c d) = 9.81 /\
     state (__init__ a b c d) = Array4 (PI / 1.1) 0 (PI / 1.1) 0 /\
     L1 (__init__ a b c d) = kwarg a 1.0 /\
     L2 (__init__ a b c d) = kwarg b 1.0 /\
     M1 (__init__ a b c d) = kwarg c 1.0 /\
     M2 (__init__ a b c d) = kwarg d 1.0).
Proof.
  split.
  - repeat split.
  - intros a b c d. repeat split.
Qed.

(** ** Positions *)

Lemma get_pos_eq (w : World) : get_pos w = Ok (positions (sim w), w).
Proof. reflexivity. Qed.

(** C3: [get_pos] leaves every object as it was and returns x1 = L1 sin th1,
    y1 = - L1 cos th1, x2 = x1 + L2 sin th2, y2 = y1 - L2 cos th2. *)
Theorem get_pos_pure_conversion (w : World) :
  let self := sim w in
  let th1 := at0 (state self) in
  let th2 := at2 (state self) in
  let x1 := L1 self * sin th1 in
  let y1 := - (L1 self * cos th1) in
  let x2 := x1 + L2 self * sin th2 in
  let y2 := y1 - L2 self * cos th2 in
  get_pos w = Ok ((x1, y1, x2, y2), w).
Proof.
  cbv zeta. rewrite get_pos_eq. unfold positions. cbv zeta.
  replace (- L1 (sim w) * cos (at0 (state (sim w))))
    with (- (L1 (sim w) * cos (at0 (state (sim w))))) by ring.
  reflexivity.
Qed.

Lemma tuple4_eq (a b c d a' b' c' d' : R) :
  a = a' -> b = b' -> c = c' -> d = d' -> (a, b, c, d) = (a', b', c', d').
Proof.
  intros -> -> -> ->. reflexivity.
Qed.

Lemma positions_hanging (l1 l2 m1 m2 grav w1 w2 : R) :
  positions (mkDoublePendulum l1 l2 m1 m2 grav (Array4 0 w1 0 w2))
  = (0, - l1, 0, - (l1 + l2)).
Proof.
  unfold positions. simpl. rewrite sin_0, cos_0.
  apply tuple4_eq; ring.
Qed.

Lemma positions_horizontal (m1 m2 grav w1 w2 : R) :
  positions (mkDoublePendulum 1 1 m1 m2 grav (Array4 (PI / 2) w1 (PI / 2) w2))
  = (1, 0, 2, 0).
Proof.
  unfold positions. simpl. rewrite sin_PI2, cos_PI2.
  apply tuple4_eq; ring.
Qed.

(** C8: at th1 = th2 = 0, whatever the velocities, [get_pos] returns
    (0, -L1, 0, -(L1+L2)); with L1 = L2 = 1 and th1 = th2 = pi/2 it returns
    x1, y1, x2, y2 within 1e-9 of 1, 0, 2, 0. *)
Theorem get_pos_reference_configurations :
  (forall (l1 l2 m1 m2 grav w1 w2 : R) (w : World),
     let hanging :=
       mkDoublePendulum l1 l2 m1 m2 grav (Array4 0 w1 0 w2) in
     get_pos (with_sim (fun _ => hanging) w)
     = Ok ((0, - l1, 0, - (l1 + l2)), with_sim (fun _ => hanging) w)) /\
  (forall (m1 m2 grav w1 w2 : R) (w : World),
     let horizontal :=
       mkDoublePendulum 1 1 m1 m2 grav (Array4 (PI / 2) w1 (PI / 2) w2) in
     exists x1 y1 x2 y2 : R,
       get_pos (with_sim (fun _ => horizontal) w)
       = Ok ((x1, y1, x2, y2), with_sim (fun _ => horizontal) w) /\
       Rabs (x1 - 1) <= 1e-9 /\ Rabs (y1 - 0) <= 1e-9 /\
       Rabs (x2 - 2) <= 1e-9 /\ Rabs (y2 - 0) <= 1e-9).
Proof.
  split.
  - intros. subst hanging. rewrite get_pos_eq. simpl sim.
    rewrite positions_hanging. reflexivity.
  - intros. subst horizontal. exists 1, 0, 2, 0.
    rewrite get_pos_eq. simpl sim. rewrite positions_horizontal.
    split; [reflexivity | ].
    replace (1 - 1) with 0 by ring. replace (0 - 0) with 0 by ring.
    replace (2 - 2) with 0 by ring. rewrite Rabs_R0. lra.
Qed.

(** ** Sequencing *)

Lemma bind_ok {A B : Type} (c : M A) (k : A -> M B) (w w' : World) (a : A) :
  c w = Ok (a, w') -> bind c k w = k a w'.
Proof.
  intros H. unfold bind. rewrite H. reflexivity.
Qed.

Lemma for_each_cons {A B : Type} (body : A -> M B) (a : A) (rest : list A)
      (w w1 w2 : World) (b : B) (bs : list B) :
  body a w = Ok (b, w1) ->
  for_each body rest w1 = Ok (bs, w2) ->
  for_each body (a :: rest) w = Ok (b :: bs, w2).
Proof.
  intros Ha Hrest. simpl.
  rewrite (bind_ok _ _ _ _ _ Ha), (bind_ok _ _ _ _ _ Hrest).
  reflexivity.
Qed.


(** ** Perturbation *)








(** ** The trace memory *)

Lemma length_last_n {A : Type} (n : nat) (l : list A) :
  List.length (last_n n l) = Nat.min n (List.length l).
Proof.
  unfold last_n. rewrite length_skipn. lia.
Qed.

Lemma last_n_short {A : Type} (n : nat) (l : list A) :
  (List.length l <= n)%nat -> last_n n l = l.
Proof.
  intros H. unfold last_n.
  replace (List.length l - n)%nat with 0%nat by lia. reflexivity.
Qed.

Lemma last_n_full_snoc {A : Type} (n : nat) (h : list A) (x : A) :
  List.length h = n -> last_n n (h ++ [x]) = tl (h ++ [x]).
Proof.
  intros H. unfold last_n. rewrite length_app. simpl.
  replace (List.length h + 1 - n)%nat with 1%nat by lia.
  destruct (h ++ [x]); reflexivity.
Qed.

Lemma last_n_snoc {A : Type} (n : nat) (l : list A) (x : A) :
  last_n n (last_n n l ++ [x]) = last_n n (l ++ [x]).
Proof.
  destruct (Nat.le_gt_cases (List.length l) n) as [Hle | Hgt].
  - rewrite (last_n_short n l Hle). reflexivity.
  - unfold last_n at 1 3.
    rewrite !length_app, length_last_n. simpl.
    replace (Nat.min n (List.length l) + 1 - n)%nat with 1%nat by lia.
    unfold last_n.
    rewrite !skipn_app, skipn_skipn, length_skipn.
    f_equal.
    + f_equal. lia.
    + f_equal. lia.
Qed.

Lemma pop0_snoc {A : Type} (l : list A) (x : A) :
  pop0 (l ++ [x]) = Ok (tl (l ++ [x])).
Proof.
  destruct l; reflexivity.
Qed.

(** What one call of [record_trace] does; it never raises. *)
Lemma record_trace_eq (x y : R) (w : World) :
  record_trace x y w =
  Ok (tt,
      if (max_history <? List.length (history_x w ++ [x]))%nat
      then with_history (tl (history_x w ++ [x])) (tl (history_y w ++ [y])) w
      else with_history (history_x w ++ [x]) (history_y w ++ [y]) w).
Proof.
  unfold record_trace, bind, modify, gets.
  cbn [history_x history_y with_history].
  destruct (max_history <? List.length (history_x w ++ [x]))%nat.
  - unfold lift. rewrite pop0_snoc.
    cbn [history_y with_history]. rewrite pop0_snoc. reflexivity.
  - reflexivity.
Qed.

(** Once the two lists hold the last [max_history] points of what was
    recorded, they do so after one more point. *)
Lemma record_trace_last_n (x y : R) (w : World) (allx ally : list R) :
  List.length allx = List.length ally ->
  history_x w = last_n max_history allx ->
  history_y w = last_n max_history ally ->
  record_trace x y w =
  Ok (tt, with_history (last_n max_history (allx ++ [x]))
                       (last_n max_history (ally ++ [y])) w).
Proof.
  intros Hlen Hx Hy. rewrite record_trace_eq.
  rewrite <- (last_n_snoc max_history allx x).
  rewrite <- (last_n_snoc max_history ally y).
  rewrite <- Hx, <- Hy.
  assert (Lx : List.length (history_x w)
               = Nat.min max_history (List.length allx))
    by (rewrite Hx; apply length_last_n).
  assert (Ly : List.length (history_y w)
               = Nat.min max_history (List.length ally))
    by (rewrite Hy; apply length_last_n).
  destruct (max_history <? List.length (history_x w ++ [x]))%nat eqn:Hfull.
  - apply Nat.ltb_lt in Hfull. rewrite length_app in Hfull. simpl in Hfull.
    rewrite !last_n_full_snoc by lia. reflexivity.
  - apply Nat.ltb_ge in Hfull. rewrite length_app in Hfull. simpl in Hfull.
    rewrite !last_n_short by (rewrite length_app; simpl; lia).
    reflexivity.
Qed.



(** ** Stepping *)

Section StepProperties.

Variable odeint :
  (State -> R -> result (array4 float64)) -> State -> list R ->
  result (list State).

(** What [step] does with the rows the solver returned. *)
Lemma step_eq (h : R) (w : World) (rows : list State) (next : State) :
  odeint (derivs (sim w)) (state (sim w)) [0; h] = Ok rows ->
  nth_error rows 1 = Some next ->
  step odeint h w =
  Ok (positions (set_state (sim w) next),
      with_sim (fun self => set_state self next) w).
Proof.
  intros Hrows Hnext.
  unfold step, bind, gets, lift, getitem, modify, get_pos, ret.
  rewrite Hrows, Hnext. reflexivity.
Qed.

Hypothesis solver : odeint_returns odeint.

Lemma solver_second_row (h : R) (w : World) :
  valid_parameters (sim w) ->
  exists rows next,
    odeint (derivs (sim w)) (state (sim w)) [0; h] = Ok rows /\
    nth_error rows 1 = Some next.
Proof.
  intros Hv.
  destruct (solver (derivs (sim w)) (state (sim w)) [0; h]
              (derivs_finite_rates (sim w) Hv)) as (rows & Hrows & Hlen).
  destruct rows as [| r0 [| r1 rest]]; simpl in Hlen; try discriminate.
  exists (r0 :: r1 :: rest), r1. split; [exact Hrows | reflexivity].
Qed.

Lemma step_returns (h : R) (w : World) :
  valid_parameters (sim w) ->
  exists next,
    step odeint h w =
    Ok (positions (set_state (sim w) next),
        with_sim (fun self => set_state self next) w).
Proof.
  intros Hv. destruct (solver_second_row h w Hv) as (rows & next & H1 & H2).
  exists next. apply (step_eq h w rows next H1 H2).
Qed.

End StepProperties.

Lemma euler_odeint_returns : odeint_returns euler_odeint.
Proof.
  intros f y0 ts Hf. destruct ts as [| t0 later].
  - exists []. split; reflexivity.
  - destruct (Hf y0 t0) as (a & b & c & d & Hk).
    unfold euler_odeint. rewrite Hk. eexists. split; [reflexivity | ].
    simpl. rewrite length_map. reflexivity.
Qed.

(** C2: with valid parameters and dt > 0, [step] returns; the solver was
    called with [derivs], the current state and the times 0 and dt; its second
    row is the whole new state; the value returned is what [get_pos] returns
    on the new state; the parameters and every other object are unchanged. *)
Theorem step_replaces_state
  (odeint : (State -> R -> result (array4 float64)) -> State -> list R ->
            result (list State))
  (h : R) (w : World) :
  odeint_returns odeint -> valid_parameters (sim w) -> 0 < h ->
  exists (rows : list State) (next_state : State)
         (p : R * R * R * R) (after : World),
    odeint (derivs (sim w)) (state (sim w)) [0; h] = Ok rows /\
    nth_error rows 1 = Some next_state /\
    step odeint h w = Ok (p, after) /\
    get_pos after = Ok (p, after) /\
    state (sim after) = next_state /\
    L1 (sim after) = L1 (sim w) /\ L2 (sim after) = L2 (sim w) /\
    M1 (sim after) = M1 (sim w) /\ M2 (sim after) = M2 (sim w) /\
    g (sim after) = g (sim w) /\
    history_x after = history_x w /\ history_y after = history_y w /\
    np_random after = np_random w /\ stdout after = stdout w.
Proof.
  intros Hsolver Hv _.
  destruct (solver_second_row odeint Hsolver h w Hv)
    as (rows & next & Hrows & Hnext).
  exists rows, next. eexists. eexists.
  split; [exact Hrows | ]. split; [exact Hnext | ].
  split; [apply (step_eq odeint h w rows next Hrows Hnext) | ].
  repeat split.
Qed.

Lemma step_replaces_state_start :
  (odeint_returns euler_odeint /\
   valid_parameters (sim (start quarter_samples)) /\ 0 < dt) /\
  exists (next_state : State) (p : R * R * R * R) (after : World),
    step euler_odeint dt (start quarter_samples) = Ok (p, after) /\
    get_pos after = Ok (p, after) /\
    state (sim after) = next_state /\
    L1 (sim after) = 1.0 /\ L2 (sim after) = 1.0.
Proof.
  assert (Hdt : 0 < dt) by (unfold dt; lra).
  split; [split; [exact euler_odeint_returns | split; [exact valid_sim0 | exact Hdt]] | ].
  destruct (step_replaces_state euler_odeint dt (start quarter_samples)
              euler_odeint_returns valid_sim0 Hdt)
    as (rows & next & p & after & _ & _ & Hstep & Hpos & Hst & HL1 & HL2 & _).
  exists next, p, after.
  split; [exact Hstep | ]. split; [exact Hpos | ]. split; [exact Hst | ].
  split; [exact HL1 | exact HL2].
Defined.

(** ** Reach *)





(** ** The horizontal configuration, up to the rounding of pi/2 *)

Lemma sin_small (e : R) : Rabs e <= 1 -> Rabs (sin e) <= Rabs e.
Proof.
  intros He. pose proof PI2_1 as Hpi.
  destruct (Rtotal_order e 0) as [Hneg | [Hzero | Hpos]].
  - rewrite (Rabs_left e Hneg) in *.
    assert (H1 : sin (- e) < - e) by (apply sin_lt_x; lra).
    assert (H2 : 0 <= sin (- e)) by (apply sin_ge_0; lra).
    rewrite sin_neg in H1, H2. rewrite Rabs_left1 by lra. lra.
  - subst e. rewrite sin_0, Rabs_R0. lra.
  - rewrite (Rabs_right e) in * by lra.
    assert (H1 : sin e < e) by (apply sin_lt_x; lra).
    assert (H2 : 0 <= sin e) by (apply sin_ge_0; lra).
    rewrite Rabs_right by lra. lra.
Qed.

Lemma cos_small (e : R) : Rabs e <= 1 -> 1 - e * e <= cos e <= 1.
Proof.
  intros He. pose proof PI2_1 as Hpi.
  pose proof (sin_small e He) as Hs.
  pose proof (sin_cos_square e) as Hsq.
  pose proof (COS_bound e) as [_ Hle].
  assert (Hb : - 1 <= e <= 1)
    by (unfold Rabs in He; destruct (Rcase_abs e); lra).
  assert (Hc : 0 <= cos e) by (apply cos_ge_0; lra).
  assert (Hs2 : sin e * sin e <= e * e).
  { apply Rsqr_le_abs_1 in Hs. unfold Rsqr in Hs. exact Hs. }
  assert (Hcc : cos e * cos e <= cos e * 1)
    by (apply Rmult_le_compat_l; assumption).
  split; lra.
Qed.

(** Angles within 5e-10 of pi/2, as the rounded [np.pi/2] is, still give the
    horizontal positions within 1e-9. *)
Lemma positions_near_horizontal (m1 m2 grav th1 w1 th2 w2 : R) :
  Rabs (th1 - PI / 2) <= 5e-10 -> Rabs (th2 - PI / 2) <= 5e-10 ->
  let '(x1, y1, x2, y2) :=
    positions (mkDoublePendulum 1 1 m1 m2 grav (Array4 th1 w1 th2 w2)) in
  Rabs (x1 - 1) <= 1e-9 /\ Rabs (y1 - 0) <= 1e-9 /\
  Rabs (x2 - 2) <= 1e-9 /\ Rabs (y2 - 0) <= 1e-9.
Proof.
  intros H1 H2. unfold positions. simpl.
  set (e1 := th1 - PI / 2) in *. set (e2 := th2 - PI / 2) in *.
  replace th1 with (PI / 2 + e1) by (unfold e1; ring).
  replace th2 with (PI / 2 + e2) by (unfold e2; ring).
  rewrite <- !cos_sin.
  replace (cos (PI / 2 + e1)) with (- sin e1) by (rewrite (sin_cos e1); ring).
  replace (cos (PI / 2 + e2)) with (- sin e2) by (rewrite (sin_cos e2); ring).
  assert (A1 : Rabs e1 <= 1) by lra. assert (A2 : Rabs e2 <= 1) by lra.
  pose proof (cos_small e1 A1) as C1. pose proof (cos_small e2 A2) as C2.
  pose proof (sin_small e1 A1) as S1. pose proof (sin_small e2 A2) as S2.
  assert (B1 : - 5e-10 <= e1 <= 5e-10)
    by (unfold Rabs in H1; destruct (Rcase_abs e1); lra).
  assert (B2 : - 5e-10 <= e2 <= 5e-10)
    by (unfold Rabs in H2; destruct (Rcase_abs e2); lra).
  assert (Q1 : e1 * e1 <= 5e-10 * 5e-10) by nra.
  assert (Q2 : e2 * e2 <= 5e-10 * 5e-10) by nra.
  assert (T1 : - 5e-10 <= sin e1 <= 5e-10).
  { unfold Rabs in S1. destruct (Rcase_abs (sin e1)), (Rcase_abs e1); lra. }
  assert (T2 : - 5e-10 <= sin e2 <= 5e-10).
  { unfold Rabs in S2. destruct (Rcase_abs (sin e2)), (Rcase_abs e2); lra. }
  repeat split; apply Rabs_le; lra.
Qed.

(** * Further properties of the code *)

(** ** Symmetries of [derivs] and [get_pos] *)

Lemma np_true_divide_opp (a d : R) :
  np_true_divide (- a) d = float64_opp (np_true_divide a d).
Proof.
  unfold np_true_divide. destruct (Req_dec_T d 0) as [Hz | Hnz].
  - reflexivity.
  - simpl. f_equal. unfold Rdiv. ring.
Qed.

Lemma derivs_delta_mirror (s : State) :
  derivs_delta (mirror s) = - derivs_delta s.
Proof.
  unfold derivs_delta, mirror. simpl. ring.
Qed.

Lemma derivs_den1_mirror (self : DoublePendulum) (s : State) :
  derivs_den1 self (mirror s) = derivs_den1 self s.
Proof.
  unfold derivs_den1. cbv zeta. rewrite derivs_delta_mirror, cos_neg.
  reflexivity.
Qed.

Lemma derivs_num1_mirror (self : DoublePendulum) (s : State) :
  derivs_num1 self (mirror s) = - derivs_num1 self s.
Proof.
  unfold derivs_num1. cbv zeta.
  rewrite derivs_delta_mirror, cos_neg, sin_neg.
  unfold mirror. simpl. rewrite !sin_neg. ring.
Qed.

Lemma derivs_num3_mirror (self : DoublePendulum) (s : State) :
  derivs_num3 self (mirror s) = - derivs_num3 self s.
Proof.
  unfold derivs_num3. cbv zeta.
  rewrite derivs_delta_mirror, cos_neg, sin_neg.
  unfold mirror. simpl. rewrite !sin_neg. ring.
Qed.

(** Mirror symmetry: on the mirrored state (all four entries negated)
    [derivs] raises if and only if it raises on the state itself, and
    otherwise returns the negated vector, a non-finite entry staying
    non-finite; [get_pos] returns the mirrored points (x negated, y kept). *)
Theorem derivs_and_positions_mirror (self : DoublePendulum) (s : State) (t : R) :
  derivs self (mirror s) t = result_map rate_opp (derivs self s t) /\
  (let '(x1, y1, x2, y2) := positions (set_state self s) in
   positions (set_state self (mirror s)) = (- x1, y1, - x2, y2)).
Proof.
  split.
  - destruct (Req_dec_T (L1 self) 0) as [Hz | Hnz].
    + rewrite !derivs_raises by exact Hz. reflexivity.
    + rewrite !derivs_returns by exact Hnz.
      unfold derivs_den2.
      rewrite derivs_den1_mirror, derivs_num1_mirror, derivs_num3_mirror.
      rewrite !np_true_divide_opp. reflexivity.
  - unfold positions, mirror. simpl. rewrite !sin_neg, !cos_neg.
    apply tuple4_eq; ring.
Qed.

(** ** Equilibria *)



(** ** Repeated calls *)

(** As [for_each_invariant], with an invariant that counts the calls. *)
Lemma for_each_counted {A B : Type} (body : A -> M B)
      (I : nat -> World -> Prop) :
  (forall a k w, I k w -> exists b w', body a w = Ok (b, w') /\ I (S k) w') ->
  forall l k w, I k w ->
    exists bs w', for_each body l w = Ok (bs, w') /\
                  I (List.length l + k)%nat w' /\
                  List.length bs = List.length l.
Proof.
  intros Hbody l. induction l as [| a rest IH]; intros k w Hw.
  - exists [], w. repeat split. exact Hw.
  - destruct (Hbody a k w Hw) as (b & w1 & Hb & Hw1).
    destruct (IH (S k) w1 Hw1) as (bs & w2 & Hbs & Hw2 & Hlen).
    exists (b :: bs), w2. split; [ | split].
    + eapply for_each_cons; eassumption.
    + simpl. rewrite Nat.add_succ_r in Hw2. exact Hw2.
    + simpl. rewrite Hlen. reflexivity.
Qed.





(** ** The click handler *)



(** ** The trace under [update] *)

Lemma last_of_last_n (n : nat) (l : list R) (x : R) :
  (0 < n)%nat -> last (last_n n (l ++ [x])) 0 = x.
Proof.
  intros Hn. unfold last_n. rewrite length_app. simpl.
  rewrite skipn_app.
  replace (List.length l + 1 - n - List.length l)%nat with 0%nat by lia.
  simpl. apply last_last.
Qed.

(** One more point in the trace: [record_trace] returns from every world
    (its [pop(0)] never meets an empty list) and touches only the two
    lists.  If they were of equal length, at most [max_history], they still
    are, they hold the last [max_history] entries of the extended lists,
    and the new point is their last entry. *)
Theorem record_trace_keeps_bound (x y : R) (w : World) :
  exists after : World,
    record_trace x y w = Ok (tt, after) /\
    sim after = sim w /\ np_random after = np_random w /\
    stdout after = stdout w /\
    (List.length (history_x w) = List.length (history_y w) ->
     (List.length (history_x w) <= max_history)%nat ->
     List.length (history_x after) = List.length (history_y after) /\
     List.length (history_x after)
     = Nat.min max_history (S (List.length (history_x w))) /\
     history_x after = last_n max_history (history_x w ++ [x]) /\
     history_y after = last_n max_history (history_y w ++ [y]) /\
     last (history_x after) 0 = x /\ last (history_y after) 0 = y).
Proof.
  eexists. split; [apply record_trace_eq | ].
  destruct (max_history <? List.length (history_x w ++ [x]))%nat eqn:Hfull;
    (split; [reflexivity | split; [reflexivity | split; [reflexivity | ]]]);
    intros Heq Hle;
    rewrite length_app in Hfull; simpl in Hfull;
    cbn [history_x history_y with_history].
  - apply Nat.ltb_lt in Hfull.
    rewrite <- (last_n_full_snoc max_history (history_x w) x) by lia.
    rewrite <- (last_n_full_snoc max_history (history_y w) y) by lia.
    rewrite !length_last_n, !length_app. cbn [Datatypes.length].
    rewrite !last_of_last_n by (unfold max_history; lia).
    repeat split; lia.
  - apply Nat.ltb_ge in Hfull.
    rewrite (last_n_short max_history (history_x w ++ [x]))
      by (rewrite length_app; simpl; lia).
    rewrite (last_n_short max_history (history_y w ++ [y]))
      by (rewrite length_app; simpl; lia).
    rewrite !length_app, !last_last. cbn [Datatypes.length].
    repeat split; lia.
Qed.

Lemma combine_fst_snd {A B : Type} (l : list (A * B)) :
  combine (map fst l) (map snd l) = l.
Proof.
  induction l as [| [a b] rest IH]; [reflexivity | ].
  simpl. rewrite IH. reflexivity.
Qed.

Lemma last_n_map {A B : Type} (f : A -> B) (n : nat) (l : list A) :
  last_n n (map f l) = map f (last_n n l).
Proof.
  unfold last_n. rewrite length_map. apply skipn_map.
Qed.

Lemma Forall_last_n {A : Type} (P : A -> Prop) (n : nat) (l : list A) :
  Forall P l -> Forall P (last_n n l).
Proof.
  intros H. unfold last_n. generalize (List.length l - n)%nat as k.
  intros k. revert l H. induction k as [| k IH]; intros l H.
  - exact H.
  - destruct H as [| a rest Ha Hrest]; [constructor | ].
    simpl. apply IH. exact Hrest.
Qed.

(** One frame, from a world whose trace holds the last points of [pts]. *)
Lemma update_one_frame
  (odeint : (State -> R -> result (array4 float64)) -> State -> list R ->
            result (list State))
  (frame : nat) (w : World) (pts : list (R * R)) :
  odeint_returns odeint -> valid_parameters (sim w) ->
  history_x w = last_n max_history (map fst pts) ->
  history_y w = last_n max_history (map snd pts) ->
  exists (next : State) (x1 y1 x2 y2 : R),
    positions (set_state (sim w) next) = (x1, y1, x2, y2) /\
    update odeint frame w =
    Ok (tt, with_history
              (last_n max_history (map fst (pts ++ [(x2, y2)])))
              (last_n max_history (map snd (pts ++ [(x2, y2)])))
              (with_sim (fun self => set_state self next) w)).
Proof.
  intros Hsolver Hv Hx Hy.
  destruct (step_returns odeint Hsolver dt w Hv) as (next & Hstep).
  unfold update. rewrite (bind_ok _ _ _ _ _ Hstep).
  destruct (positions (set_state (sim w) next)) as [[[x1 y1] x2] y2] eqn:Hpos.
  exists next, x1, y1, x2, y2. split; [exact Hpos | ].
  rewrite !map_app. simpl map.
  apply record_trace_last_n.
  - rewrite !length_map. reflexivity.
  - exact Hx.
  - exact Hy.
Qed.

(** [update] called for n frames from a world with valid parameters and an
    empty trace: every frame returns; the two trace lists have the same
    length, min(200, n); once a frame has run, their last entries are the
    x2 and y2 that [get_pos] gives for the pendulum as it is now;
    parameters, generator and output are untouched. *)
Theorem update_frames
  (odeint : (State -> R -> result (array4 float64)) -> State -> list R ->
            result (list State))
  (n : nat) (w : World) :
  odeint_returns odeint -> valid_parameters (sim w) ->
  history_x w = [] -> history_y w = [] ->
  exists (outs : list unit) (after : World),
    for_each (update odeint) (seq 0 n) w = Ok (outs, after) /\
    List.length (history_x after) = Nat.min max_history n /\
    List.length (history_y after) = Nat.min max_history n /\
    ((0 < n)%nat ->
     exists x1 y1 : R,
       positions (sim after)
       = (x1, y1, last (history_x after) 0, last (history_y after) 0)) /\
    L1 (sim after) = L1 (sim w) /\ L2 (sim after) = L2 (sim w) /\
    M1 (sim after) = M1 (sim w) /\ M2 (sim after) = M2 (sim w) /\
    g (sim after) = g (sim w) /\
    np_random after = np_random w /\ stdout after = stdout w.
Proof.
  intros Hsolver Hv Hx0 Hy0.
  set (I := fun (k : nat) (w' : World) =>
    L1 (sim w') = L1 (sim w) /\ L2 (sim w') = L2 (sim w) /\
    M1 (sim w') = M1 (sim w) /\ M2 (sim w') = M2 (sim w) /\
    g (sim w') = g (sim w) /\
    np_random w' = np_random w /\ stdout w' = stdout w /\
    List.length (history_x w') = Nat.min max_history k /\
    List.length (history_y w') = Nat.min max_history k /\
    ((0 < k)%nat ->
     exists x1 y1 : R,
       positions (sim w')
       = (x1, y1, last (history_x w') 0, last (history_y w') 0)) /\
    exists pts : list (R * R),
      List.length pts = k /\
      history_x w' = last_n max_history (map fst pts) /\
      history_y w' = last_n max_history (map snd pts)).
  assert (Hbody : forall (frame : nat) k w1, I k w1 ->
            exists b w', update odeint frame w1 = Ok (b, w') /\ I (S k) w').
  { intros frame k w1
      (HL1 & HL2 & HM1 & HM2 & Hg & Hr & Hout & _ & _ & _
       & pts & Hlen & Hx & Hy).
    assert (Hv1 : valid_parameters (sim w1))
      by (unfold valid_parameters in *; rewrite HL1, HL2, HM1, HM2; exact Hv).
    destruct (update_one_frame odeint frame w1 pts Hsolver Hv1 Hx Hy)
      as (next & x1 & y1 & x2 & y2 & Hpos & Hrun).
    eexists. eexists. split; [exact Hrun | ].
    unfold I. cbn [sim history_x history_y np_random stdout with_history
                   with_sim set_state L1 L2 M1 M2 g].
    repeat (split; [assumption | ]).
    rewrite !map_app. cbn [map fst snd].
    split; [rewrite length_last_n, length_app, length_map, Hlen;
            cbn [Datatypes.length]; lia | ].
    split; [rewrite length_last_n, length_app, length_map, Hlen;
            cbn [Datatypes.length]; lia | ].
    split.
    - intros _. exists x1, y1.
      rewrite !last_of_last_n by (unfold max_history; lia). exact Hpos.
    - exists (pts ++ [(x2, y2)]).
      split; [rewrite length_app; simpl; lia | ].
      rewrite !map_app. split; reflexivity. }
  assert (Hinit : I 0%nat w).
  { unfold I. repeat (split; [reflexivity | ]).
    rewrite Hx0, Hy0.
    split; [reflexivity | ]. split; [reflexivity | ].
    split; [intros H; inversion H | ].
    exists []. repeat split. }
  destruct (for_each_counted (update odeint) I Hbody (seq 0 n) 0%nat w Hinit)
    as (outs & after & Hrun & Hinv & _).
  rewrite length_seq, Nat.add_0_r in Hinv.
  destruct Hinv
    as (HL1 & HL2 & HM1 & HM2 & Hg & Hr & Hout & Lx & Ly & Hlast & _).
  exists outs, after. split; [exact Hrun | ].
  repeat (split; [assumption | ]). exact Hout.
Qed.

Lemma update_frames_euler :
  (odeint_returns euler_odeint /\
   valid_parameters (sim (start quarter_samples))) /\
  exists (outs : list unit) (after : World),
    for_each (update euler_odeint) (seq 0 250) (start quarter_samples)
    = Ok (outs, after) /\
    List.length (history_x after) = Nat.min max_history 250.
Proof.
  split; [split; [exact euler_odeint_returns | exact valid_sim0] | ].
  destruct (update_frames euler_odeint 250 (start quarter_samples)
              euler_odeint_returns valid_sim0 eq_refl eq_refl)
    as (outs & after & Hrun & Hlen & _).
  exists outs, after. split; [exact Hrun | exact Hlen].
Defined.

(** ** Energy *)



Lemma derivable_pt_lim_ext (f h : R -> R) (x l : R) :
  (forall y, f y = h y) -> derivable_pt_lim f x l -> derivable_pt_lim h x l.
Proof.
  intros Hext Hf eps Heps. destruct (Hf eps Heps) as (delta & Hdelta).
  exists delta. intros k Hk Hsmall. rewrite <- !Hext.
  apply Hdelta; assumption.
Qed.

Lemma derivable_pt_lim_value (f : R -> R) (x l l' : R) :
  l = l' -> derivable_pt_lim f x l -> derivable_pt_lim f x l'.
Proof.
  intros ->. trivial.
Qed.









Lemma deriv_sin_affine (A B x0 : R) :
  derivable_pt_lim (fun x => A + B * sin x) x0 (B * cos x0).
Proof.
  apply derivable_pt_lim_value with (l := 0 + B * cos x0); [ring | ].
  apply (derivable_pt_lim_ext (plus_fct (fct_cte A) (mult_real_fct B sin))).
  - intros y. reflexivity.
  - apply derivable_pt_lim_plus.
    + apply derivable_pt_lim_const.
    + apply derivable_pt_lim_scal. apply derivable_pt_lim_sin.
Qed.

Lemma deriv_cos_affine (A B x0 : R) :
  derivable_pt_lim (fun x => A + B * cos x) x0 (- B * sin x0).
Proof.
  apply derivable_pt_lim_value with (l := 0 + B * (- sin x0)); [ring | ].
  apply (derivable_pt_lim_ext (plus_fct (fct_cte A) (mult_real_fct B cos))).
  - intros y. reflexivity.
  - apply derivable_pt_lim_plus.
    + apply derivable_pt_lim_const.
    + apply derivable_pt_lim_scal. apply derivable_pt_lim_cos.
Qed.

(** [velocities] is the rate of [positions]: each coordinate that [get_pos]
    returns has partial derivatives in th1 and in th2, and the velocity is
    their sum weighted by w1 and w2. *)
Lemma velocities_are_rates_of_positions
      (p : DoublePendulum) (th1 w1 th2 w2 : R) :
  let at_th1 x := positions (set_state p (Array4 x w1 th2 w2)) in
  let at_th2 x := positions (set_state p (Array4 th1 w1 x w2)) in
  let x1 (q : R * R * R * R) := fst (fst (fst q)) in
  let y1 (q : R * R * R * R) := snd (fst (fst q)) in
  let x2 (q : R * R * R * R) := snd (fst q) in
  let y2 (q : R * R * R * R) := snd q in
  exists ax1 ay1 ax2 ay2 bx1 by1 bx2 by2 : R,
    derivable_pt_lim (fun x => x1 (at_th1 x)) th1 ax1 /\
    derivable_pt_lim (fun x => y1 (at_th1 x)) th1 ay1 /\
    derivable_pt_lim (fun x => x2 (at_th1 x)) th1 ax2 /\
    derivable_pt_lim (fun x => y2 (at_th1 x)) th1 ay2 /\
    derivable_pt_lim (fun x => x1 (at_th2 x)) th2 bx1 /\
    derivable_pt_lim (fun x => y1 (at_th2 x)) th2 by1 /\
    derivable_pt_lim (fun x => x2 (at_th2 x)) th2 bx2 /\
    derivable_pt_lim (fun x => y2 (at_th2 x)) th2 by2 /\
    velocities p (Array4 th1 w1 th2 w2)
    = (ax1 * w1 + bx1 * w2, ay1 * w1 + by1 * w2,
       ax2 * w1 + bx2 * w2, ay2 * w1 + by2 * w2).
Proof.
  cbv zeta. unfold positions. simpl.
  exists (L1 p * cos th1), (L1 p * sin th1), (L1 p * cos th1),
         (L1 p * sin th1), 0, 0, (L2 p * cos th2), (L2 p * sin th2).
  repeat split.
  - apply (derivable_pt_lim_ext (fun x => 0 + L1 p * sin x));
      [intros y; ring | apply deriv_sin_affine].
  - apply (derivable_pt_lim_ext (fun x => 0 + (- L1 p) * cos x));
      [intros y; ring | ].
    eapply derivable_pt_lim_value; [ | apply deriv_cos_affine]. ring.
  - apply (derivable_pt_lim_ext
             (fun x => L2 p * sin th2 + L1 p * sin x));
      [intros y; ring | apply deriv_sin_affine].
  - apply (derivable_pt_lim_ext
             (fun x => - (L2 p * cos th2) + (- L1 p) * cos x));
      [intros y; ring | ].
    eapply derivable_pt_lim_value; [ | apply deriv_cos_affine]. ring.
  - apply (derivable_pt_lim_const (L1 p * sin th1)).
  - apply (derivable_pt_lim_const (- L1 p * cos th1)).
  - apply (derivable_pt_lim_ext
             (fun x => L1 p * sin th1 + L2 p * sin x));
      [intros y; ring | apply deriv_sin_affine].
  - apply (derivable_pt_lim_ext
             (fun x => - L1 p * cos th1 + (- L2 p) * cos x));
      [intros y; ring | ].
    eapply derivable_pt_lim_value; [ | apply deriv_cos_affine]. ring.
  - unfold velocities. simpl. apply tuple4_eq; ring.
Qed.


Lemma positions_near_horizontal_exact :
  (Rabs (PI / 2 - PI / 2) <= 5e-10) /\
  (let '(x1, y1, x2, y2) :=
     positions (mkDoublePendulum 1 1 1 1 9.81
                  (Array4 (PI / 2) 0 (PI / 2) 0)) in
   Rabs (x1 - 1) <= 1e-9 /\ Rabs (y1 - 0) <= 1e-9 /\
   Rabs (x2 - 2) <= 1e-9 /\ Rabs (y2 - 0) <= 1e-9).
Proof.
  assert (H : Rabs (PI / 2 - PI / 2) <= 5e-10)
    by (rewrite Rminus_diag, Rabs_R0; lra).
  split; [exact H | ].
  exact (positions_near_horizontal 1 1 9.81 (PI / 2) 0 (PI / 2) 0 H H).
Defined.

(** * The binary64 methods *)

Section Binary64.

Import ZArith QArith Floats.
#[local] Set Warnings "-inexact-float".
Local Open Scope float_scope.

(** ** Non-finite values in the four operations *)

Lemma zero_divisor (y : float) :
  (y =? 0) = true -> exists s, Prim2SF y = S754_zero s.
Proof.
  rewrite eqb_spec. change (Prim2SF 0) with (S754_zero false).
  destruct (Prim2SF y) as [s | s | | s m e]; simpl; intros H;
    try discriminate H.
  - exists s. reflexivity.
  - destruct s; discriminate H.
  - destruct s; discriminate H.
Qed.

Lemma div_by_zero_nonfinite (x y : float) :
  (y =? 0) = true -> F64.nonfinite (x / y) = true.
Proof.
  intros H. destruct (zero_divisor y H) as (s & Hy).
  unfold F64.nonfinite. rewrite div_spec, Hy.
  destruct (Prim2SF x); reflexivity.
Qed.

Lemma nonfinite_nan (x : float) : x = nan -> F64.nonfinite x = true.
Proof. intros ->. reflexivity. Qed.

Lemma mul_nan_r (x : float) : x * nan = nan.
Proof.
  apply Prim2SF_inj. rewrite mul_spec.
  change (Prim2SF nan) with S754_nan. destruct (Prim2SF x); reflexivity.
Qed.

Lemma add_nan_l (x : float) : nan + x = nan.
Proof.
  apply Prim2SF_inj. rewrite add_spec.
  change (Prim2SF nan) with S754_nan. reflexivity.
Qed.

Lemma sub_nan_l (x : float) : nan - x = nan.
Proof.
  apply Prim2SF_inj. rewrite sub_spec.
  change (Prim2SF nan) with S754_nan. reflexivity.
Qed.

Lemma sub_nan_r (x : float) : x - nan = nan.
Proof.
  apply Prim2SF_inj. rewrite sub_spec.
  change (Prim2SF nan) with S754_nan. destruct (Prim2SF x); reflexivity.
Qed.

Lemma add_nan_r (x : float) : x + nan = nan.
Proof.
  apply Prim2SF_inj. rewrite add_spec.
  change (Prim2SF nan) with S754_nan. destruct (Prim2SF x); reflexivity.
Qed.

Lemma mul_nonfinite_r (h k : float) :
  F64.nonfinite k = true -> F64.nonfinite (h * k) = true.
Proof.
  unfold F64.nonfinite. rewrite mul_spec.
  destruct (Prim2SF k) as [s | s | | s m e]; intros H; try discriminate H;
    destruct (Prim2SF h); reflexivity.
Qed.

Lemma add_nonfinite_r (y z : float) :
  F64.nonfinite z = true -> F64.nonfinite (y + z) = true.
Proof.
  unfold F64.nonfinite. rewrite add_spec.
  destruct (Prim2SF z) as [s | s | | s m e]; intros H; try discriminate H.
  - destruct (Prim2SF y) as [s' | s' | | s' m' e']; try reflexivity.
    destruct s', s; reflexivity.
  - destruct (Prim2SF y); reflexivity.
Qed.

(** ** Dynamic types *)

Lemma value_binop (op : float -> float -> float) (a b : F64.number) :
  F64.value (F64.binop op a b) = op (F64.value a) (F64.value b).
Proof. destruct a, b; reflexivity. Qed.

Lemma is_python_binop (op : float -> float -> float) (a b : F64.number) :
  F64.is_python (F64.binop op a b)
  = (F64.is_python a && F64.is_python b)%bool.
Proof. destruct a, b; reflexivity. Qed.

Lemma value_neg (a : F64.number) : F64.value (F64.neg a) = - F64.value a.
Proof. destruct a; reflexivity. Qed.

Lemma truediv_numpy (a b : F64.number) :
  F64.is_python a = false ->
  F64.truediv a b = Ok (F64.np_float64 (F64.value a / F64.value b)).
Proof. destruct a, b; intros H; try discriminate H; reflexivity. Qed.

Section Methods.

Variables np_sin np_cos : float -> float.

Lemma derivs_num1_numpy (self : F64.DoublePendulum) (s : array4 float) :
  F64.is_python (F64.derivs_num1 np_sin np_cos self s) = false.
Proof.
  unfold F64.derivs_num1, F64.sub, F64.mul. cbv zeta.
  rewrite !is_python_binop. simpl. rewrite !Bool.andb_false_r.
  reflexivity.
Qed.

Lemma derivs_num3_numpy (self : F64.DoublePendulum) (s : array4 float) :
  F64.is_python (F64.derivs_num3 np_sin np_cos self s) = false.
Proof.
  unfold F64.derivs_num3, F64.sub, F64.mul. cbv zeta.
  rewrite !is_python_binop. simpl. rewrite !Bool.andb_false_r.
  reflexivity.
Qed.

(** The quotient [self.L2/self.L1]. *)
Lemma lengths_quotient_raises (self : F64.DoublePendulum) :
  F64.zero_python_length self ->
  F64.truediv (F64.L2 self) (F64.L1 self) = Raise ZeroDivisionError.
Proof.
  intros (H1 & H2 & Hz).
  destruct (F64.L1 self) as [x | x], (F64.L2 self) as [y | y];
    try discriminate H1; try discriminate H2.
  simpl in *. rewrite Hz. reflexivity.
Qed.

Lemma lengths_quotient_returns (self : F64.DoublePendulum) :
  ~ F64.zero_python_length self ->
  exists ratio,
    F64.truediv (F64.L2 self) (F64.L1 self) = Ok ratio /\
    F64.value ratio = F64.value (F64.L2 self) / F64.value (F64.L1 self).
Proof.
  intros Hn. unfold F64.zero_python_length in Hn.
  destruct (F64.L1 self) as [x | x], (F64.L2 self) as [y | y]; simpl in *;
    try (eexists; split; reflexivity).
  destruct (x =? 0) eqn:Hz.
  - exfalso. apply Hn. repeat split.
  - eexists; split; reflexivity.
Qed.

Lemma derivs_raises_exactly (self : F64.DoublePendulum) (s : array4 float)
      (t : float) :
  F64.zero_python_length self ->
  F64.derivs np_sin np_cos self s t = Raise ZeroDivisionError.
Proof.
  intros Hz. unfold F64.derivs.
  rewrite (truediv_numpy _ _ (derivs_num1_numpy self s)).
  rewrite (lengths_quotient_raises self Hz). reflexivity.
Qed.

Lemma derivs_returns_values (self : F64.DoublePendulum) (s : array4 float)
      (t : float) :
  ~ F64.zero_python_length self ->
  exists ratio,
    F64.truediv (F64.L2 self) (F64.L1 self) = Ok ratio /\
    F64.derivs np_sin np_cos self s t =
    Ok (Array4 (at1 s)
               (F64.value (F64.derivs_num1 np_sin np_cos self s)
                / F64.value (F64.derivs_den1 np_cos self s))
               (at3 s)
               (F64.value (F64.derivs_num3 np_sin np_cos self s)
                / F64.value (F64.derivs_den2 np_cos ratio self s))).
Proof.
  intros Hn. destruct (lengths_quotient_returns self Hn) as (ratio & Hq & _).
  exists ratio. split; [exact Hq | ].
  unfold F64.derivs.
  rewrite (truediv_numpy _ _ (derivs_num1_numpy self s)), Hq.
  rewrite (truediv_numpy _ _ (derivs_num3_numpy self s)).
  reflexivity.
Qed.

Lemma get_pos_values (self : F64.DoublePendulum) :
  F64.get_pos np_sin np_cos self =
  (F64.value (F64.L1 self) * np_sin (at0 (F64.state self)),
   - F64.value (F64.L1 self) * np_cos (at0 (F64.state self)),
   F64.value (F64.L1 self) * np_sin (at0 (F64.state self))
   + F64.value (F64.L2 self) * np_sin (at2 (F64.state self)),
   - F64.value (F64.L1 self) * np_cos (at0 (F64.state self))
   - F64.value (F64.L2 self) * np_cos (at2 (F64.state self))).
Proof.
  unfold F64.get_pos, F64.add, F64.sub, F64.mul. cbv zeta.
  rewrite !value_binop, !value_neg. reflexivity.
Qed.

Lemma keeps_lengths (self : F64.DoublePendulum) (s : array4 float) :
  F64.zero_python_length (F64.set_state self s)
  <-> F64.zero_python_length self.
Proof. unfold F64.zero_python_length. simpl. tauto. Qed.

Lemma get_pos_first_angle_nonfinite (self : F64.DoublePendulum) :
  F64.libm_nan_outside np_sin np_cos ->
  F64.nonfinite (at0 (F64.state self)) = true ->
  F64.get_pos np_sin np_cos self = (nan, nan, nan, nan).
Proof.
  intros Hlib H0. destruct (Hlib _ H0) as (Hs & Hc).
  rewrite get_pos_values, Hs, Hc, !mul_nan_r, !add_nan_l, !sub_nan_l.
  reflexivity.
Qed.

Lemma get_pos_second_angle_nonfinite (self : F64.DoublePendulum) :
  F64.libm_nan_outside np_sin np_cos ->
  F64.nonfinite (at2 (F64.state self)) = true ->
  exists x1 y1, F64.get_pos np_sin np_cos self = (x1, y1, nan, nan).
Proof.
  intros Hlib H2. destruct (Hlib _ H2) as (Hs & Hc).
  rewrite get_pos_values, Hs, Hc, !mul_nan_r, !add_nan_r, !sub_nan_r.
  eexists. eexists. reflexivity.
Qed.

Section Stepping.

Variable odeint :
  (array4 float -> float -> result (array4 float)) -> array4 float ->
  list float -> result (list (array4 float)).

Hypothesis returns : F64.odeint_returns odeint.
Hypothesis carries : F64.odeint_carries_nonfinite odeint.

(** One call of [step] when [derivs] does not raise: the rate at the
    current state, the object after the call, and what was carried. *)
Lemma step_stores_row (self : F64.DoublePendulum) (dt : float) :
  ~ F64.zero_python_length self ->
  exists ratio row,
    F64.truediv (F64.L2 self) (F64.L1 self) = Ok ratio /\
    F64.step np_sin np_cos odeint self dt
    = Ok (F64.get_pos np_sin np_cos (F64.set_state self row),
          F64.set_state self row) /\
    F64.carries
      (Array4 (at1 (F64.state self))
              (F64.value (F64.derivs_num1 np_sin np_cos self (F64.state self))
               / F64.value (F64.derivs_den1 np_cos self (F64.state self)))
              (at3 (F64.state self))
              (F64.value (F64.derivs_num3 np_sin np_cos self (F64.state self))
               / F64.value
                   (F64.derivs_den2 np_cos ratio self (F64.state self))))
      row.
Proof.
  intros Hn.
  destruct (derivs_returns_values self (F64.state self) 0 Hn)
    as (ratio & Hq & Hk).
  destruct (returns (F64.derivs np_sin np_cos self) (F64.state self) 0 dt)
    as (r0 & r1 & Hrows).
  { intros y t. destruct (derivs_returns_values self y t Hn) as (r & _ & H).
    eexists. exact H. }
  exists ratio, r1. split; [exact Hq | ]. split.
  - unfold F64.step. rewrite Hrows. reflexivity.
  - exact (carries _ _ _ _ _ _ _ Hk Hrows).
Qed.

End Stepping.

End Methods.

(** ** The stand-in library and solver *)

Lemma series_exact_at_zero :
  F64.libm_exact_at_zero F64.series_sin F64.series_cos.
Proof. split; reflexivity. Qed.

Lemma series_nan_outside :
  F64.libm_nan_outside F64.series_sin F64.series_cos.
Proof.
  intros x Hx. unfold F64.series_sin, F64.series_cos. rewrite Hx.
  split; reflexivity.
Qed.

Lemma euler_returns : F64.odeint_returns F64.euler_odeint.
Proof.
  intros f y0 t0 t1 Hf. destruct (Hf y0 t0) as (k & Hk).
  unfold F64.euler_odeint. rewrite Hk. eexists. eexists. reflexivity.
Qed.

Lemma euler_carries_nonfinite :
  F64.odeint_carries_nonfinite F64.euler_odeint.
Proof.
  intros f y0 t0 t1 k row0 row1 Hk Hrows.
  unfold F64.euler_odeint in Hrows. rewrite Hk in Hrows.
  injection Hrows as _ <-.
  unfold F64.carries, F64.euler_row. simpl.
  repeat split; intros H; apply add_nonfinite_r, mul_nonfinite_r; exact H.
Qed.

Lemma euler_lets_raise : F64.odeint_lets_raise F64.euler_odeint.
Proof.
  intros f y0 t0 t1 e Hf. unfold F64.euler_odeint. rewrite Hf.
  reflexivity.
Qed.

(** ** Zero denominators *)

(** C9, amended: [derivs] has no guard for a zero denominator.  It raises
    in one case only, [ZeroDivisionError] from [self.L2/self.L1] when L1
    and L2 are both Python floats and L1 is zero.  In every other case it
    returns, the first and third entries being the two velocities; when
    den1 or den2 is zero the division by it leaves inf or nan in the second
    or the fourth entry, and that value goes unchecked into the state and
    from there into the coordinates: with a solver that carries a
    non-finite rate into the row it returns, the velocity is non-finite
    after one call of [step], the angle after two, and the coordinates the
    second call returns are nan (all four when den1 is zero, x2 and y2
    when den2 is). *)
Theorem zero_denominator_unchecked
  (np_sin np_cos : float -> float)
  (odeint : (array4 float -> float -> result (array4 float)) ->
            array4 float -> list float -> result (list (array4 float)))
  (self : F64.DoublePendulum) :
  F64.libm_nan_outside np_sin np_cos ->
  F64.odeint_returns odeint -> F64.odeint_carries_nonfinite odeint ->
  (forall s t,
     F64.derivs np_sin np_cos self s t = Raise ZeroDivisionError
     <-> F64.zero_python_length self) /\
  (~ F64.zero_python_length self ->
   exists ratio,
     F64.truediv (F64.L2 self) (F64.L1 self) = Ok ratio /\
     (forall s t, exists dydx,
        F64.derivs np_sin np_cos self s t = Ok dydx /\
        at0 dydx = at1 s /\ at2 dydx = at3 s /\
        ((F64.value (F64.derivs_den1 np_cos self s) =? 0) = true ->
         F64.nonfinite (at1 dydx) = true) /\
        ((F64.value (F64.derivs_den2 np_cos ratio self s) =? 0) = true ->
         F64.nonfinite (at3 dydx) = true)) /\
     (forall dt, exists p1 self1 p2 self2,
        F64.step np_sin np_cos odeint self dt = Ok (p1, self1) /\
        F64.step np_sin np_cos odeint self1 dt = Ok (p2, self2) /\
        ((F64.value (F64.derivs_den1 np_cos self (F64.state self)) =? 0)
         = true ->
         F64.nonfinite (at1 (F64.state self1)) = true /\
         F64.nonfinite (at0 (F64.state self2)) = true /\
         p2 = (nan, nan, nan, nan)) /\
        ((F64.value (F64.derivs_den2 np_cos ratio self (F64.state self)) =? 0)
         = true ->
         F64.nonfinite (at3 (F64.state self1)) = true /\
         F64.nonfinite (at2 (F64.state self2)) = true /\
         exists x1 y1, p2 = (x1, y1, nan, nan)))).
Proof.
  intros Hlib Hret Hcar. split.
  - intros s t. split.
    + intros Hr.
      assert (Hd : F64.zero_python_length self
                   \/ ~ F64.zero_python_length self).
      { unfold F64.zero_python_length.
        destruct (F64.is_python (F64.L1 self)),
                 (F64.is_python (F64.L2 self)),
                 (F64.value (F64.L1 self) =? 0);
          try (left; repeat split; fail);
          right; intros (H1 & H2 & H3); discriminate. }
      destruct Hd as [Hz | Hn]; [exact Hz | ].
      destruct (derivs_returns_values np_sin np_cos self s t Hn)
        as (ratio & _ & Hk).
      rewrite Hk in Hr. discriminate Hr.
    + apply derivs_raises_exactly.
  - intros Hn.
    destruct (lengths_quotient_returns self Hn) as (ratio & Hq & _).
    exists ratio. split; [exact Hq | ]. split.
    + intros s t.
      destruct (derivs_returns_values np_sin np_cos self s t Hn)
        as (ratio' & Hq' & Hk).
      rewrite Hq in Hq'. injection Hq' as <-.
      eexists. split; [exact Hk | ].
      simpl. split; [reflexivity | ]. split; [reflexivity | ].
      split; intros Hz; apply div_by_zero_nonfinite; exact Hz.
    + intros dt.
      destruct (step_stores_row np_sin np_cos odeint Hret Hcar self dt Hn)
        as (ratio' & row & Hq' & Hstep & (_ & C1 & _ & C3)).
      rewrite Hq in Hq'. injection Hq' as <-.
      simpl in C1, C3.
      assert (Hn1 : ~ F64.zero_python_length (F64.set_state self row))
        by (rewrite keeps_lengths; exact Hn).
      destruct (step_stores_row np_sin np_cos odeint Hret Hcar
                  (F64.set_state self row) dt Hn1)
        as (ratio1 & row' & _ & Hstep' & (D0 & _ & D2 & _)).
      simpl in D0, D2.
      eexists. eexists. eexists. eexists.
      split; [exact Hstep | ]. split; [exact Hstep' | ].
      split.
      * intros Hz.
        pose proof (C1 (div_by_zero_nonfinite _ _ Hz)) as Hrow.
        pose proof (D0 Hrow) as H0.
        split; [exact Hrow | ]. split; [exact H0 | ].
        apply get_pos_first_angle_nonfinite; assumption.
      * intros Hz.
        pose proof (C3 (div_by_zero_nonfinite _ _ Hz)) as Hrow.
        pose proof (D2 Hrow) as H2.
        split; [exact Hrow | ]. split; [exact H2 | ].
        apply get_pos_second_angle_nonfinite; assumption.
Qed.

Lemma zero_denominator_unchecked_absorbed_mass :
  (F64.libm_nan_outside F64.series_sin F64.series_cos /\
   F64.odeint_returns F64.euler_odeint /\
   F64.odeint_carries_nonfinite F64.euler_odeint) /\
  exists p1 self1 self2,
    F64.step F64.series_sin F64.series_cos F64.euler_odeint
             (F64.__init__ None None (Some (F64.py_float 1e-20)) None) 0.04
    = Ok (p1, self1) /\
    F64.step F64.series_sin F64.series_cos F64.euler_odeint self1 0.04
    = Ok ((nan, nan, nan, nan), self2).
Proof.
  split;
    [split; [exact series_nan_outside
            | split; [exact euler_returns | exact euler_carries_nonfinite]]
    | ].
  destruct (zero_denominator_unchecked F64.series_sin F64.series_cos
              F64.euler_odeint
              (F64.__init__ None None (Some (F64.py_float 1e-20)) None)
              series_nan_outside euler_returns euler_carries_nonfinite)
    as (_ & Hrest).
  destruct Hrest as (ratio & _ & _ & Hsteps).
  { intros (_ & _ & Hz). vm_compute in Hz. discriminate Hz. }
  destruct (Hsteps 0.04)
    as (p1 & self1 & p2 & self2 & H1 & H2 & Hfirst & _).
  destruct Hfirst as (_ & _ & ->); [vm_compute; reflexivity | ].
  exists p1, self1, self2. split; [exact H1 | exact H2].
Defined.

(** ** The one error of [step] *)

(** [step] raises exactly when L1 and L2 are Python floats and L1 is zero
    (the solver evaluating the callback at the initial state): then it
    raises [ZeroDivisionError] for every dt and every state; with any other
    parameters, a zero length of NumPy type included, it returns. *)
Theorem step_raises_exactly
  (np_sin np_cos : float -> float)
  (odeint : (array4 float -> float -> result (array4 float)) ->
            array4 float -> list float -> result (list (array4 float)))
  (self : F64.DoublePendulum) (dt : float) :
  F64.odeint_lets_raise odeint -> F64.odeint_returns odeint ->
  (F64.zero_python_length self ->
   F64.step np_sin np_cos odeint self dt = Raise ZeroDivisionError) /\
  (~ F64.zero_python_length self ->
   exists p self',
     F64.step np_sin np_cos odeint self dt = Ok (p, self') /\
     p = F64.get_pos np_sin np_cos self' /\
     F64.L1 self' = F64.L1 self /\ F64.L2 self' = F64.L2 self /\
     F64.M1 self' = F64.M1 self /\ F64.M2 self' = F64.M2 self /\
     F64.g self' = F64.g self).
Proof.
  intros Hraise Hret. split.
  - intros Hz. unfold F64.step.
    rewrite (Hraise _ _ _ _ _
               (derivs_raises_exactly np_sin np_cos self (F64.state self) 0 Hz)).
    reflexivity.
  - intros Hn.
    destruct (Hret (F64.derivs np_sin np_cos self) (F64.state self) 0 dt)
      as (r0 & r1 & Hrows).
    { intros y t.
      destruct (derivs_returns_values np_sin np_cos self y t Hn)
        as (r & _ & H).
      eexists. exact H. }
    eexists. eexists. split.
    + unfold F64.step. rewrite Hrows. reflexivity.
    + repeat split.
Qed.

Lemma step_raises_exactly_both_types :
  (F64.odeint_lets_raise F64.euler_odeint /\
   F64.odeint_returns F64.euler_odeint) /\
  F64.step F64.series_sin F64.series_cos F64.euler_odeint
           (F64.__init__ (Some (F64.py_float 0)) None None None) 0.04
  = Raise ZeroDivisionError /\
  exists p self',
    F64.step F64.series_sin F64.series_cos F64.euler_odeint
             (F64.__init__ (Some (F64.np_float64 0)) None None None) 0.04
    = Ok (p, self').
Proof.
  split; [split; [exact euler_lets_raise | exact euler_returns] | ].
  split.
  - apply (step_raises_exactly F64.series_sin F64.series_cos
             F64.euler_odeint
             (F64.__init__ (Some (F64.py_float 0)) None None None) 0.04
             euler_lets_raise euler_returns).
    repeat split.
  - destruct (step_raises_exactly F64.series_sin F64.series_cos
                F64.euler_odeint
                (F64.__init__ (Some (F64.np_float64 0)) None None None) 0.04
                euler_lets_raise euler_returns) as (_ & Hok).
    destruct Hok as (p & self' & Hstep & _).
    { intros (H1 & _). discriminate H1. }
    exists p, self'. exact Hstep.
Defined.

(** ** Rounding against the bounds of exact arithmetic *)

(** At M1 = 1e-20, the other parameters 1.0, and both angles zero: the sum
    M1 + M2 is 1.0, den1 and den2 are 0.0, and both divisions are 0/0. *)
Lemma absorbed_mass_rates (np_sin np_cos : float -> float) :
  F64.libm_exact_at_zero np_sin np_cos ->
  let self := F64.__init__ None None (Some (F64.py_float 1e-20)) None in
  F64.positive_parameters self /\
  F64.value (F64.derivs_den1 np_cos self (Array4 0 0 0 0)) = 0 /\
  F64.derivs np_sin np_cos self (Array4 0 0 0 0) 0
  = Ok (Array4 0 nan 0 nan).
Proof.
  intros (Hs & Hc). cbv zeta. split; [repeat split | ].
  split.
  - cbv. rewrite Hc. reflexivity.
  - cbv. rewrite Hs, Hc. reflexivity.
Qed.

(** The input at which C10, as stated, fails on binary64 numbers: whatever
    the C library (exact at zero), the parameters (1.0, 1.0, 1e-20, 1.0) are
    all positive and at the state (0, 0, 0, 0) den1 is not positive and the
    second entry [derivs] returns is nan. *)
Lemma denominator_vanishes_in_binary64 :
  ~ exists np_sin np_cos : float -> float,
      F64.libm_exact_at_zero np_sin np_cos /\
      forall self s t,
        F64.positive_parameters self ->
        (0 <? F64.value (F64.derivs_den1 np_cos self s)) = true \/
        exists dydx,
          F64.derivs np_sin np_cos self s t = Ok dydx /\
          F64.nonfinite (at1 dydx) = false.
Proof.
  intros (np_sin & np_cos & Hlib & Hclaim).
  destruct (absorbed_mass_rates np_sin np_cos Hlib) as (Hpos & Hden & Hk).
  destruct (Hclaim _ (Array4 0 0 0 0) 0 Hpos) as [H | (dydx & Hd & Hfin)].
  - rewrite Hden in H. discriminate H.
  - rewrite Hk in Hd. injection Hd as <-. discriminate Hfin.
Qed.


End Binary64.
